(** * rivermap-osmium-tools: tag filter, CSV emitters and river-system join table

    A shallow embedding of the two command line tools of the repository:

    - [osmium_waterway_ids] (both revisions: rules compiled in, and rules read
      from a tags-filter file), which writes the ids of water ways and water
      areas and of their nodes to two CSV files;
    - [osmium_rivermap], which converts waterways to an OGR layer and joins
      the name of the river system from a CSV table.

    The tools are thin clients of libosmium.  The few library operations they
    call ([TagList], [TagsFilter], [match_any_of], area ids, the line string
    factory) are embedded in [Module Osmium], after the headers of the
    library; the C++ stream operations used by the join table loader are
    embedded in [Module IStream], after the C++ standard.  The two functions
    of util.cpp that the rules file loader calls are parameters of the
    loader; [Module UtilSpec] holds the instance the specification
    describes. *)

From Stdlib Require Import ZArith String Ascii List Lia Bool.
From stdpp Require Import base gmap strings list pretty.

Open Scope string_scope.
Open Scope Z_scope.

(** A call either returns or throws a [std::exception] with its message. *)
Inductive result (A : Type) : Type :=
| Ok (a : A)
| Throw (what : string).
Arguments Ok {A} a.
Arguments Throw {A} what.

(** ** The part of libosmium the tools use *)

Module Osmium.

(** [osmium::Tag] and [osmium::TagList] (osmium/osm/tag.hpp): a sequence of
    key/value pairs. *)
Definition Tag : Type := string * string.
Definition TagList : Type := list Tag.

(** [TagList::get_value_by_key]: the value of the first tag with that key,
    [nullptr] (here [None]) when there is none. *)
Fixpoint get_value_by_key (tags : TagList) (key : string) : option string :=
  match tags with
  | [] => None
  | (k, v) :: rest =>
      if String.eqb key k then Some v else get_value_by_key rest key
  end.

(** [TagList::has_key]. *)
Definition has_key (tags : TagList) (key : string) : bool :=
  match get_value_by_key tags key with
  | Some _ => true
  | None => false
  end.

(** [osmium::StringMatcher] (osmium/util/string_matcher.hpp), the
    alternatives the tools construct. *)
Inductive StringMatcher : Type :=
| always_false
| always_true
| equal (s : string).

Definition string_match (m : StringMatcher) (s : string) : bool :=
  match m with
  | always_false => false
  | always_true => true
  | equal t => String.eqb t s
  end.

(** [osmium::TagMatcher] (osmium/tags/matcher.hpp): a key matcher, a value
    matcher and the result the value matcher has to give ([m_result], false
    when inverted). *)
Record TagMatcher : Type := mkTagMatcher {
  key_matcher : StringMatcher;
  value_matcher : StringMatcher;
  m_result : bool
}.

(** [TagMatcher(key)] and [TagMatcher(key, value)]. *)
Definition matcher_key (k : string) : TagMatcher :=
  mkTagMatcher (equal k) always_true true.
Definition matcher_key_value (k v : string) : TagMatcher :=
  mkTagMatcher (equal k) (equal v) true.

(** [TagMatcher::operator()(const Tag&)]. *)
Definition tag_match (m : TagMatcher) (t : Tag) : bool :=
  string_match (key_matcher m) (fst t)
  && Bool.eqb (string_match (value_matcher m) (snd t)) (m_result m).

(** [osmium::TagsFilter] (osmium/tags/tags_filter.hpp): the rules in the
    order they were added, each with the result it gives, and the result
    when no rule matches. *)
Record TagsFilter : Type := mkTagsFilter {
  m_rules : list (bool * TagMatcher);
  m_default_result : bool
}.

Definition new_filter (default_result : bool) : TagsFilter :=
  mkTagsFilter [] default_result.

(** [TagsFilter::add_rule(result, matcher)] appends. *)
Definition add_rule (result : bool) (m : TagMatcher) (f : TagsFilter)
  : TagsFilter :=
  mkTagsFilter (m_rules f ++ [(result, m)]) (m_default_result f).

(** [TagsFilter::operator()(const Tag&)]: the first rule that matches the
    tag decides; the default decides when none does. *)
Fixpoint rules_result (rules : list (bool * TagMatcher)) (dflt : bool)
    (t : Tag) : bool :=
  match rules with
  | [] => dflt
  | (result, m) :: rest =>
      if tag_match m t then result else rules_result rest dflt t
  end.

Definition filter_tag (f : TagsFilter) (t : Tag) : bool :=
  rules_result (m_rules f) (m_default_result f) t.

(** [osmium::tags::match_any_of] (osmium/tags/taglist.hpp): [std::any_of]
    over the tags. *)
Definition match_any_of (tags : TagList) (f : TagsFilter) : bool :=
  existsb (filter_tag f) tags.

(** [osmium::NodeRef]: the node id and, once resolved, its location. *)
Record NodeRef : Type := mkNodeRef {
  ref : Z;
  location : option (Z * Z)
}.

Record Way : Type := mkWay {
  way_id : Z;
  way_tags : TagList;
  way_nodes : list NodeRef
}.

(** The rings of an area are sub-items of the area object, outer and inner
    rings in one sequence. *)
Inductive Ring : Type :=
| OuterRing (nodes : list NodeRef)
| InnerRing (nodes : list NodeRef).

Record Area : Type := mkArea {
  area_id : Z;
  area_tags : TagList;
  area_rings : list Ring
}.

(** [Area::outer_rings]: the sub-items that are outer rings. *)
Fixpoint outer_rings (rings : list Ring) : list (list NodeRef) :=
  match rings with
  | [] => []
  | OuterRing nodes :: rest => nodes :: outer_rings rest
  | InnerRing _ :: rest => outer_rings rest
  end.

Inductive item_type : Type := type_way | type_relation.

(** [object_id_to_area_id] (osmium/osm/area.hpp): ways get even area ids,
    relations odd ones.  Ids are 64-bit integers; the product is taken in
    [Z], which is what the machine computes for ids below 2^62. *)
Definition object_id_to_area_id (id : Z) (type : item_type) : Z :=
  let area_id := Z.abs id * 2 in
  let area_id := match type with
                 | type_relation => area_id + 1
                 | type_way => area_id
                 end in
  if id <? 0 then - area_id else area_id.

(** [area_id_to_object_id]: C++ division, rounding towards zero. *)
Definition area_id_to_object_id (id : Z) : Z := Z.quot id 2.

(** [Area::orig_id]. *)
Definition orig_id (a : Area) : Z := area_id_to_object_id (area_id a).

(** What [geom::OGRFactory<>::create_linestring(way)]
    (osmium/geom/factory.hpp) does: it returns the points of the line
    string, throws [osmium::geometry_error], or throws something else
    ([osmium::invalid_location], a [std::range_error]). *)
Inductive linestring_result : Type :=
| linestring (points : list (Z * Z))
| geometry_error (what : string)
| other_error (what : string).

(** [fill_linestring_unique]: a node whose location equals the one before
    it is left out, [last_location] starts undefined, and projecting an
    undefined location throws. *)
Fixpoint fill_linestring_unique (nodes : list NodeRef)
    (last_location : option (Z * Z)) (points : list (Z * Z))
  : result (list (Z * Z)) :=
  match nodes with
  | [] => Ok points
  | nr :: rest =>
      if decide (last_location = location nr)
      then fill_linestring_unique rest last_location points
      else
        match location nr with
        | None => Throw "invalid location"
        | Some p => fill_linestring_unique rest (Some p) (points ++ [p])
        end
  end.

(** [create_linestring] with the defaults [use_nodes::unique] and
    [direction::forward]. *)
Definition create_linestring (w : Way) : linestring_result :=
  match fill_linestring_unique (way_nodes w) None [] with
  | Throw what => other_error what
  | Ok points =>
      if (length points <? 2)%nat
      then geometry_error "need at least two points for linestring"
      else linestring points
  end.

End Osmium.

(** ** osmium_waterway_ids *)

Module WaterwayIds.
Import Osmium.

(** The two [std::ofstream]s of the handler, as the text written so far. *)
Record Sinks : Type := mkSinks {
  waystream : string;
  areastream : string
}.

Inductive sink : Type := to_waystream | to_areastream.

Definition write (out : sink) (text : string) (s : Sinks) : Sinks :=
  match out with
  | to_waystream => mkSinks (waystream s +:+ text) (areastream s)
  | to_areastream => mkSinks (waystream s) (areastream s +:+ text)
  end.

(** [out << "," << nr.ref()] for every node of the range. *)
Fixpoint node_fields (nodes : list NodeRef) : string :=
  match nodes with
  | [] => ""
  | nr :: rest => "," +:+ pretty (ref nr) +:+ node_fields rest
  end.

Definition endl : string := String (ascii_of_nat 10) "".

(** [WaterHandler::output_waterway]. *)
Definition output_waterway (way : Way) (tag_key : string) (out : sink)
    (s : Sinks) : Sinks :=
  match get_value_by_key (way_tags way) tag_key with
  | Some tag_value =>
      let s := write out (pretty (way_id way) +:+ "," +:+ tag_value) s in
      let s := write out (node_fields (way_nodes way)) s in
      write out endl s
  | None => s
  end.

(** The inner loops of [output_area]: every node of every outer ring. *)
Fixpoint ring_fields (rings : list (list NodeRef)) : string :=
  match rings with
  | [] => ""
  | ring :: rest => node_fields ring +:+ ring_fields rest
  end.

(** [WaterHandler::output_area]. *)
Definition output_area (area : Area) (tag_key : string) (out : sink)
    (s : Sinks) : Sinks :=
  match get_value_by_key (area_tags area) tag_key with
  | Some tag_value =>
      let s := write out (pretty (orig_id area) +:+ "," +:+ tag_value) s in
      let s := write out (ring_fields (outer_rings (area_rings area))) s in
      write out endl s
  | None => s
  end.

(** [WaterHandler::way]. *)
Definition way (m_filter : TagsFilter) (w : Way) (s : Sinks) : Sinks :=
  let tags := way_tags w in
  if match_any_of tags m_filter then
    if has_key tags "waterway" then
      output_waterway w "waterway" to_waystream s
    else if has_key tags "natural" then
      output_waterway w "natural" to_areastream s
    else if has_key tags "landuse" then
      output_waterway w "landuse" to_areastream s
    else s
  else s.

(** [WaterHandler::area]. *)
Definition area (m_filter : TagsFilter) (a : Area) (s : Sinks) : Sinks :=
  let tags := area_tags a in
  if match_any_of tags m_filter then
    if has_key tags "natural" then
      output_area a "natural" to_areastream s
    else if has_key tags "landuse" then
      output_area a "landuse" to_areastream s
    else s
  else s.

(** What the second pass hands to the handler: the ways of the input in
    stream order and the areas the multipolygon manager completes in
    between.  Nodes and relations reach no callback of [WaterHandler]. *)
Inductive Item : Type :=
| ItemWay (w : Way)
| ItemArea (a : Area).

(** [osmium::apply(reader, location_handler, data_handler, ...)]. *)
Fixpoint apply (m_filter : TagsFilter) (items : list Item) (s : Sinks)
  : Sinks :=
  match items with
  | [] => s
  | ItemWay w :: rest => apply m_filter rest (way m_filter w s)
  | ItemArea a :: rest => apply m_filter rest (area m_filter a s)
  end.

(** The filter [main] of the first revision sets up. *)
Definition builtin_filter : TagsFilter :=
  let filter := new_filter false in
  let filter := add_rule true (matcher_key_value "natural" "water") filter in
  let filter := add_rule true (matcher_key_value "natural" "coastline") filter in
  let filter := add_rule true (matcher_key_value "landuse" "reservoir") filter in
  let filter := add_rule true (matcher_key_value "landuse" "basin") filter in
  let filter := add_rule true (matcher_key_value "waterway" "stream") filter in
  let filter := add_rule true (matcher_key_value "waterway" "river") filter in
  let filter := add_rule true (matcher_key_value "waterway" "ditch") filter in
  let filter := add_rule true (matcher_key_value "waterway" "canal") filter in
  let filter := add_rule true (matcher_key_value "waterway" "drain") filter in
  let filter := add_rule true (matcher_key_value "waterway" "weir") filter in
  let filter := add_rule true (matcher_key_value "waterway" "dam") filter in
  let filter := add_rule true (matcher_key_value "waterway" "waterfall") filter in
  add_rule true (matcher_key_value "waterway" "fish_pass") filter.

(** *** The second revision: rules read from a tags-filter file *)

(** [osmium::osm_entity_bits::type], a bit mask. *)
Definition osm_entity_bits : Type := N.

(** The lines [std::getline] returns one after the other: the text up to
    each line feed, and the rest after the last one unless it is empty. *)
Fixpoint getlines_from (line : string) (text : string) : list string :=
  match text with
  | EmptyString => if String.eqb line "" then [] else [line]
  | String c rest =>
      if Ascii.eqb c (ascii_of_nat 10)
      then line :: getlines_from "" rest
      else getlines_from (line +:+ String c "") rest
  end.

Definition getlines (text : string) : list string := getlines_from "" text.

(** [line.find_first_of('#')] followed by [line.erase(pos)]. *)
Fixpoint erase_from_hash (line : string) : string :=
  match line with
  | EmptyString => EmptyString
  | String c rest =>
      if Ascii.eqb c "#"%char then EmptyString
      else String c (erase_from_hash rest)
  end.

(** [line.back()] of a non-empty line and [line.resize(line.size() - 1)]. *)
Fixpoint back (line : string) : option ascii :=
  match line with
  | EmptyString => None
  | String c EmptyString => Some c
  | String _ rest => back rest
  end.

Fixpoint drop_back (line : string) : string :=
  match line with
  | EmptyString => EmptyString
  | String _ EmptyString => EmptyString
  | String c rest => String c (drop_back rest)
  end.

Definition carriage_return : ascii := ascii_of_nat 13.

(** The body of the loop of [read_expressions_file] up to the call of
    [parse_and_add_expression]: [None] when the line is skipped, the
    expression handed on otherwise. *)
Definition expression_of_line (line : string) : option string :=
  let line := erase_from_hash line in
  if String.eqb line "" then None
  else
    match back line with
    | Some c => if Ascii.eqb c carriage_return
                then Some (drop_back line) else Some line
    | None => Some line
    end.

Section Loader.

(** The two functions of util.cpp the handler calls.  The handler only
    relies on their types; [Module UtilSpec] gives the instance used in
    the examples. *)
Variable get_filter_expression :
  string -> result (osm_entity_bits * string).
Variable get_tag_matcher : string -> result TagMatcher.

(** [WaterHandler::parse_and_add_expression]; the line written to
    [std::cout] is left out. *)
Definition parse_and_add_expression (expression : string)
    (m_filter : TagsFilter) : result TagsFilter :=
  match get_filter_expression expression with
  | Throw what => Throw what
  | Ok p =>
      match get_tag_matcher (snd p) with
      | Throw what => Throw what
      | Ok matcher => Ok (add_rule true matcher m_filter)
      end
  end.

(** The loop of [read_expressions_file] over the lines of the file. *)
Fixpoint read_expressions (lines : list string) (m_filter : TagsFilter)
  : result TagsFilter :=
  match lines with
  | [] => Ok m_filter
  | line :: rest =>
      match expression_of_line line with
      | None => read_expressions rest m_filter
      | Some expression =>
          match parse_and_add_expression expression m_filter with
          | Throw what => Throw what
          | Ok m_filter => read_expressions rest m_filter
          end
      end
  end.

(** The files of the machine: path to content.  Every path can be
    created and written, and a path is the file: two different paths are
    two different files. *)
Definition read_expressions_file (fs : gmap string string)
    (file_name : string) (m_filter : TagsFilter) : result TagsFilter :=
  match fs !! file_name with
  | None => Throw ("Could not open file '" +:+ file_name +:+ "'")
  | Some text => read_expressions (getlines text) m_filter
  end.

(** What a run leaves behind. *)
Record Outcome : Type := mkOutcome {
  exit_code : Z;
  files : gmap string string
}.

(** [waystream.open(wayfile); areastream.open(areafile)]: both files are
    created, or truncated when they exist. *)
Definition open_sinks (wayfile areafile : string)
    (fs : gmap string string) : gmap string string :=
  <[areafile := ""]> (<[wayfile := ""]> fs).

(** The destructor of the handler: what went to the streams is in the
    files.  This holds for two different files.  When both paths name the
    same file, the two streams overwrite one another from the start of the
    file, in an order that depends on when their buffers are flushed; that
    case is not modelled, and every result about the contents of the
    output files is stated for two different paths. *)
Definition close_sinks (wayfile areafile : string) (s : Sinks)
    (fs : gmap string string) : gmap string string :=
  <[areafile := areastream s]> (<[wayfile := waystream s]> fs).

(** What reading an OSM file gives: nothing when the first pass throws
    because the file cannot be read, and otherwise the items the second
    pass delivers to the handler, which depend on the filter the
    multipolygon manager was given.  A reader that throws in the middle of
    the second pass, after the handler has seen some items, is not
    modelled. *)
Definition OsmReader : Type :=
  string -> option (TagsFilter -> list Item).

(** [main] of the second revision, [argv] without the program name. *)
Definition main (osm : OsmReader) (args : list string)
    (fs : gmap string string) : Outcome :=
  match args with
  | [osmfile; filterfile; wayfile; areafile] =>
      let fs := open_sinks wayfile areafile fs in
      match read_expressions_file fs filterfile (new_filter false) with
      | Throw _ =>
          mkOutcome 1 (close_sinks wayfile areafile (mkSinks "" "") fs)
      | Ok m_filter =>
          match osm osmfile with
          | None =>
              mkOutcome 1 (close_sinks wayfile areafile (mkSinks "" "") fs)
          | Some items =>
              let s := apply m_filter (items m_filter) (mkSinks "" "") in
              mkOutcome 0 (close_sinks wayfile areafile s fs)
          end
      end
  | _ => mkOutcome 1 fs
  end.

End Loader.

(** [main] of the first revision: the handler, and with it the two files,
    is created after the first pass. *)
Definition main_builtin (osm : OsmReader) (args : list string)
    (fs : gmap string string) : Outcome :=
  match args with
  | [osmfile; wayfile; areafile] =>
      match osm osmfile with
      | None => mkOutcome 1 fs
      | Some items =>
          let fs := open_sinks wayfile areafile fs in
          let s := apply builtin_filter (items builtin_filter)
                     (mkSinks "" "") in
          mkOutcome 0 (close_sinks wayfile areafile s fs)
      end
  | _ => mkOutcome 1 fs
  end.

End WaterwayIds.

(** ** The filter expressions of util.cpp *)

Module UtilSpec.
Import Osmium WaterwayIds.

(** [osm_entity_bits::nwr]. *)
Definition nwr : osm_entity_bits := 7%N.

(** Modelled from the spec: util.cpp, which defines
    [get_filter_expression], is not among the sources.  The grammar of the
    spec, [[!]key[=value]], has no prefix for object types, so the whole
    line is the expression and it applies to nodes, ways and relations. *)
Definition get_filter_expression (s : string)
  : result (osm_entity_bits * string) :=
  Ok (nwr, s).

(** Modelled from the spec: the split of [key[=value]], a helper of
    [get_tag_matcher] below: the text before the first [=], and the text
    after it when there is one. *)
Fixpoint split_at_equals (s : string) : string * option string :=
  match s with
  | EmptyString => (EmptyString, None)
  | String c rest =>
      if Ascii.eqb c "="%char then (EmptyString, Some rest)
      else let (key, value) := split_at_equals rest in
           (String c key, value)
  end.

(** Modelled from the spec: util.cpp, which defines [get_tag_matcher], is
    not among the sources.  The grammar is [[!]key[=value]]: a bare key
    matches any value of the key, [key=value] matches that value exactly,
    and a leading [!] negates; the only place a [TagMatcher] has for a
    negation is its [m_result].  An expression without a key does not
    parse. *)
Definition get_tag_matcher (expression : string) : result TagMatcher :=
  let (negated, body) :=
    match expression with
    | String c rest =>
        if Ascii.eqb c "!"%char then (true, rest) else (false, expression)
    | EmptyString => (false, expression)
    end in
  let (key, value) := split_at_equals body in
  if String.eqb key "" then
    Throw ("Can not parse filter expression '" +:+ expression +:+ "'")
  else
    Ok (mkTagMatcher (equal key)
          (match value with
           | Some v => equal v
           | None => always_true
           end)
          (negb negated)).

End UtilSpec.

(** ** The formatted input of [std::istream] the join table loader uses *)

Module IStream.

(** An input stream: the characters not yet read and the state bits. *)
Record istream : Type := mkIstream {
  rdbuf : string;
  eofbit : bool;
  failbit : bool;
  badbit : bool
}.

Definition good (s : istream) : bool :=
  negb (eofbit s || failbit s || badbit s).
Definition eof (s : istream) : bool := eofbit s.
Definition fail (s : istream) : bool := failbit s || badbit s.

(** [setstate(failbit)] and [setstate(failbit | eofbit)]. *)
Definition set_fail (s : istream) : istream :=
  mkIstream (rdbuf s) (eofbit s) true (badbit s).
Definition set_fail_eof (s : istream) : istream :=
  mkIstream (rdbuf s) true true (badbit s).

(** [ifs.open(filename)]: the content of the file, or [failbit] when it
    cannot be opened. *)
Definition open (content : option string) : istream :=
  match content with
  | Some text => mkIstream text false false false
  | None => mkIstream "" false true false
  end.

(** [std::isspace] in the C locale. *)
Definition isspace (c : ascii) : bool :=
  let n := nat_of_ascii c in
  (n =? 32)%nat || ((9 <=? n)%nat && (n <=? 13)%nat).

Definition isdigit (c : ascii) : bool :=
  let n := nat_of_ascii c in (48 <=? n)%nat && (n <=? 57)%nat.

Definition digit_value (c : ascii) : Z := Z.of_nat (nat_of_ascii c) - 48.

Fixpoint skip_space (text : string) : string :=
  match text with
  | EmptyString => EmptyString
  | String c rest => if isspace c then skip_space rest else text
  end.

(** The sentry of a formatted input function: a stream that is not good
    fails; otherwise white space is skipped, and reaching the end of the
    input while skipping sets [failbit] and [eofbit]. *)
Definition sentry (s : istream) : istream * bool :=
  if good s then
    match skip_space (rdbuf s) with
    | EmptyString => (mkIstream "" true true (badbit s), false)
    | text => (mkIstream text (eofbit s) (failbit s) (badbit s), true)
    end
  else (set_fail s, false).

(** The characters up to the next line feed, what follows the line feed,
    and whether a line feed was found. *)
Fixpoint until_newline (text : string) : string * string * bool :=
  match text with
  | EmptyString => (EmptyString, EmptyString, false)
  | String c rest =>
      if Ascii.eqb c (ascii_of_nat 10) then (EmptyString, rest, true)
      else let '(line, rest', found) := until_newline rest in
           (String c line, rest', found)
  end.

(** [std::getline(is, str)]. *)
Definition getline (s : istream) (str : string) : istream * string :=
  if good s then
    match rdbuf s with
    | EmptyString => (mkIstream "" true true (badbit s), "")
    | text =>
        let '(line, rest, found) := until_newline text in
        (mkIstream rest (negb found) (failbit s) (badbit s), line)
    end
  else (set_fail s, str).

(** The digits at the front of the text, their decimal value on top of
    [acc], and the rest. *)
Fixpoint take_digits (text : string) (acc : Z) (count : nat)
  : Z * nat * string :=
  match text with
  | EmptyString => (acc, count, EmptyString)
  | String c rest =>
      if isdigit c then take_digits rest (10 * acc + digit_value c) (S count)
      else (acc, count, text)
  end.

(** The limits of [long] where it has 64 bits. *)
Definition LONG_MAX : Z := 2 ^ 63 - 1.
Definition LONG_MIN : Z := - 2 ^ 63.

(** [is >> v] for a [long]: an optional sign and decimal digits.  Without
    a digit [0] is stored and the stream fails; a value out of range
    stores the nearest limit and fails.  Reading up to the end of the
    input sets [eofbit]. *)
Definition extract_long (s : istream) (v : Z) : istream * Z :=
  let (s, ok) := sentry s in
  if ok then
    let (negative, text) :=
      match rdbuf s with
      | String c rest =>
          if Ascii.eqb c "-"%char then (true, rest)
          else if Ascii.eqb c "+"%char then (false, rest)
          else (false, rdbuf s)
      | EmptyString => (false, EmptyString)
      end in
    let '(magnitude, count, rest) := take_digits text 0 0 in
    let at_end := String.eqb rest "" in
    let value := if negative then - magnitude else magnitude in
    if (count =? 0)%nat then
      (mkIstream rest at_end true (badbit s), 0)
    else if value <? LONG_MIN then
      (mkIstream rest at_end true (badbit s), LONG_MIN)
    else if LONG_MAX <? value then
      (mkIstream rest at_end true (badbit s), LONG_MAX)
    else
      (mkIstream rest at_end (failbit s) (badbit s), value)
  else (s, v).

(** [is >> c] for a [char]; the character is [None] when none was read. *)
Definition extract_char (s : istream) : istream * option ascii :=
  let (s, ok) := sentry s in
  if ok then
    match rdbuf s with
    | String c rest =>
        (mkIstream rest (eofbit s) (failbit s) (badbit s), Some c)
    | EmptyString => (set_fail_eof s, None)
    end
  else (s, None).

(** The characters up to the next white space, and the rest. *)
Fixpoint until_space (text : string) : string * string :=
  match text with
  | EmptyString => (EmptyString, EmptyString)
  | String c rest =>
      if isspace c then (EmptyString, text)
      else let (word, rest') := until_space rest in (String c word, rest')
  end.

(** [is >> str] for a [std::string]. *)
Definition extract_string (s : istream) (str : string) : istream * string :=
  let (s, ok) := sentry s in
  if ok then
    let (word, rest) := until_space (rdbuf s) in
    (mkIstream rest (String.eqb rest "") (failbit s) (badbit s), word)
  else (s, str).

End IStream.

(** ** osmium_rivermap *)

Module Rivermap.
Import Osmium IStream.

(** The manipulator [comma]: [is.clear(std::ios::badbit)] replaces the
    whole state by [badbit]. *)
Definition comma (ifs : istream) : istream :=
  match extract_char ifs with
  | (ifs, Some c) =>
      if negb (Ascii.eqb c ","%char)
      then mkIstream (rdbuf ifs) false false true
      else ifs
  | (ifs, None) => ifs
  end.

(** A [const char *] handed out by the table: the buffer of a node of
    [m_names], or the buffer of [m_empty]. *)
Inductive c_str : Type :=
| c_str_of_name (node : nat)
| c_str_of_empty.

#[global] Instance c_str_eq_dec : EqDecision c_str.
Proof. solve_decision. Defined.

(** [RiversystemMap]: the nodes of the set [m_names] in the order they
    were allocated (a node never moves and holds a name no other node
    holds), and the map from way id to name pointer. *)
Record RiversystemMap : Type := mkRiversystemMap {
  m_names : list string;
  m_id2Name : gmap Z c_str
}.

Definition empty_map : RiversystemMap := mkRiversystemMap [] ∅.

(** The node of [m_names] that holds [name], if any. *)
Fixpoint find_node (names : list string) (name : string) : option nat :=
  match names with
  | [] => None
  | n :: rest =>
      if String.eqb n name then Some O
      else match find_node rest name with
           | Some i => Some (S i)
           | None => None
           end
  end.

(** [m_names.insert(name).first]: the node that holds the name, a new one
    only when no node holds it yet. *)
Definition names_insert (names : list string) (name : string)
  : list string * nat :=
  match find_node names name with
  | Some node => (names, node)
  | None => ((names ++ [name])%list, length names)
  end.

(** [RiversystemMap::insert]; [std::map::insert] keeps an entry that is
    already there. *)
Definition insert (id : Z) (name : string) (m : RiversystemMap)
  : RiversystemMap :=
  let (names, node) := names_insert (m_names m) name in
  let nameptr := c_str_of_name node in
  mkRiversystemMap names
    (match m_id2Name m !! id with
     | Some _ => m_id2Name m
     | None => <[id := nameptr]> (m_id2Name m)
     end).

(** [RiversystemMap::getName]. *)
Definition getName (m : RiversystemMap) (id : Z) : c_str :=
  match m_id2Name m !! id with
  | None => c_str_of_empty
  | Some nameptr => nameptr
  end.

(** The string a pointer handed out by the table points to. *)
Definition c_str_value (m : RiversystemMap) (p : c_str) : string :=
  match p with
  | c_str_of_empty => ""
  | c_str_of_name node => default "" (m_names m !! node)
  end.

(** The loop of [load].  It runs as long as [eofbit] is not set, which a
    stream that failed before the end of the input never does: [None]
    when [fuel] iterations were not enough. *)
Fixpoint load_loop (fuel : nat) (ifs : istream) (id : Z) (name : string)
    (m : RiversystemMap) : option RiversystemMap :=
  match fuel with
  | O => None
  | S fuel =>
      if eof ifs then Some m
      else
        let (ifs, id) := extract_long ifs id in
        let ifs := comma ifs in
        let (ifs, name) := extract_string ifs name in
        load_loop fuel ifs id name (insert id name m)
  end.

(** How a call of [load] ends: it returns, with the table it has filled;
    it throws, with the table as it is then; or it is still running when
    the fuel is used up. *)
Inductive load_result : Type :=
| loaded (m : RiversystemMap)
| thrown (what : string) (m : RiversystemMap)
| out_of_fuel.

(** [RiversystemMap::load].  [content] is the content of the file, [None]
    when it cannot be opened; [id] is the value the uninitialised local
    variable happens to have. *)
Definition load (fuel : nat) (filename : string) (content : option string)
    (id : Z) (m : RiversystemMap) : load_result :=
  let ifs := open content in
  let header := "" in
  let (ifs, header) :=
    if negb (eof ifs) then getline ifs header else (ifs, header) in
  if String.eqb header "" then
    thrown ("Can't read from file " +:+ filename) m
  else if negb (String.eqb header "id,rsystem") then
    thrown ("Wrong csv header: " +:+ header) m
  else
    match load_loop fuel ifs id "" m with
    | Some m => loaded m
    | None => out_of_fuel
    end.

(** A field of an OGR feature; a real field holds an integer here. *)
Inductive field_value : Type :=
| real_field (value : Z)
| string_field (value : string).

(** A feature: its geometry and the fields that were set. *)
Record Feature : Type := mkFeature {
  geometry : list (Z * Z);
  fields : gmap string field_value
}.

Definition set_field (name : string) (v : field_value) (f : Feature)
  : Feature :=
  mkFeature (geometry f) (<[name := v]> (fields f)).

(** The handler: the features added to the layer and the lines written
    to [std::cerr]. *)
Record OGRHandler : Type := mkOGRHandler {
  m_layer_linestring : list Feature;
  cerr : list string
}.

Section Handler.

(** The line string factory of the handler. *)
Variable m_factory_create_linestring : Way -> linestring_result.

(** [static_cast<double>(id)] for a 64-bit integer, as the integer the
    double stands for: the id itself up to 2^53 in magnitude, and beyond
    that the nearest integer with 53 significant bits, a tie going to the
    one whose last significant bit is zero. *)
Definition double_of_long (id : Z) : Z :=
  let magnitude := Z.abs id in
  if magnitude <=? 2 ^ 53 then id
  else
    let dropped := Z.log2 magnitude - 52 in
    let quotient := magnitude / 2 ^ dropped in
    let remainder := magnitude mod 2 ^ dropped in
    let half := 2 ^ (dropped - 1) in
    let rounded :=
      if (half <? remainder) || ((remainder =? half) && Z.odd quotient)
      then quotient + 1 else quotient in
    Z.sgn id * (rounded * 2 ^ dropped).

(** [MyOGRHandler::way]. *)
Definition way (m_rsystems : RiversystemMap) (w : Way) (h : OGRHandler)
  : result OGRHandler :=
  match get_value_by_key (way_tags w) "waterway" with
  | Some waterway =>
      let name := get_value_by_key (way_tags w) "name" in
      match m_factory_create_linestring w with
      | linestring points =>
          let feature := mkFeature points ∅ in
          let feature :=
            set_field "id" (real_field (double_of_long (way_id w)))
              feature in
          let feature :=
            match name with
            | Some name => set_field "name" (string_field name) feature
            | None => feature
            end in
          let feature := set_field "type" (string_field waterway) feature in
          let riversystem := getName m_rsystems (way_id w) in
          let feature :=
            set_field "rsystem"
              (string_field (c_str_value m_rsystems riversystem)) feature in
          Ok (mkOGRHandler (m_layer_linestring h ++ [feature])%list (cerr h))
      | geometry_error _ =>
          Ok (mkOGRHandler (m_layer_linestring h)
                (cerr h ++ ["Ignoring illegal geometry for way "
                            +:+ pretty (way_id w) +:+ "."])%list)
      | other_error what => Throw what
      end
  | None => Ok h
  end.

(** [osmium::apply] over the ways of the input, up to the first
    exception that leaves the handler. *)
Fixpoint apply_ways (m_rsystems : RiversystemMap) (ways : list Way)
    (h : OGRHandler) : OGRHandler * option string :=
  match ways with
  | [] => (h, None)
  | w :: rest =>
      match way m_rsystems w h with
      | Ok h => apply_ways m_rsystems rest h
      | Throw what => (h, Some what)
      end
  end.

(** How a run ends: with an exit code and the features in the layer, or
    not within the fuel. *)
Inductive run_result : Type :=
| exited (code : Z) (layer : list Feature)
| unfinished.

(** [main] from the construction of the reader on, the options being
    parsed.  [ways] are the ways the reader delivers, [None] when the
    reader throws; [fs] are the files of the machine. *)
Definition run (fuel : nat) (ways : option (list Way))
    (rsystems_file : string) (fs : gmap string string) (id : Z)
  : run_result :=
  match ways with
  | None => exited 1 []
  | Some ways =>
      let rsystems :=
        if negb (String.eqb rsystems_file "")
        then load fuel rsystems_file (fs !! rsystems_file) id empty_map
        else loaded empty_map in
      match rsystems with
      | thrown _ _ => exited 1 []
      | out_of_fuel => unfinished
      | loaded rsystems =>
          match apply_ways rsystems ways (mkOGRHandler [] []) with
          | (h, None) => exited 0 (m_layer_linestring h)
          | (h, Some _) => exited 1 (m_layer_linestring h)
          end
      end
  end.

End Handler.

End Rivermap.

(** ** The vocabulary of the statements

    The notions of the specification in its own words ([classifyKey],
    [matches], the CSV formats), and the invariants the proofs use. *)

Module Spec.
Import Osmium WaterwayIds IStream Rivermap.

(** The priority list of classifying keys. *)
Definition classifying_keys : list string :=
  ["waterway"; "natural"; "landuse"].

(** [classifyKey]: the first key of the priority list that is present in
    the tag mapping. *)
Definition classifyKey (tags : TagList) : option string :=
  List.find (has_key tags) classifying_keys.

(** The keys an assembled area is classified by. *)
Definition classifyAreaKey (tags : TagList) : option string :=
  List.find (has_key tags) ["natural"; "landuse"].

(** The sink a classifying key selects. *)
Definition sink_of_key (key : string) : sink :=
  if String.eqb key "waterway" then to_waystream else to_areastream.

(** A line of the CSV output: [id,<tag-value>[,node_id]*]. *)
Definition csv_line (id : Z) (tag_value : string) (node_ids : list Z)
  : string :=
  String.concat "," (pretty id :: tag_value :: map pretty node_ids)
  +:+ endl.

(** The text of a sequence of lines. *)
Fixpoint text_of_lines (lines : list string) : string :=
  match lines with
  | [] => ""
  | line :: rest => line +:+ text_of_lines rest
  end.

(** The lines the ways of the input are due in the ways sink: one for
    every way, in stream order, that the filter accepts and that has a
    waterway tag. *)
Definition way_sink_lines (f : TagsFilter) (items : list Item)
  : list string :=
  flat_map
    (fun item =>
       match item with
       | ItemWay w =>
           match get_value_by_key (way_tags w) "waterway" with
           | Some v =>
               if match_any_of (way_tags w) f
               then [csv_line (way_id w) v (map ref (way_nodes w))]
               else []
           | None => []
           end
       | ItemArea _ => []
       end) items.

(** A rule matches a tag: the key is the rule's key and the value is the
    rule's value, or the rule's value is the wildcard. *)
Definition include_matches (R : TagsFilter) (t : Tag) : bool :=
  existsb (fun r => fst r && tag_match (snd r) t) (m_rules R).
Definition exclude_matches (R : TagsFilter) (t : Tag) : bool :=
  existsb (fun r => negb (fst r) && tag_match (snd r) t) (m_rules R).

(** [matches] as the specification words it: some tag is matched by an
    include rule and by no exclude rule. *)
Definition matches (R : TagsFilter) (T : TagList) : bool :=
  existsb (fun t => include_matches R t && negb (exclude_matches R t)) T.

(** A filter all of whose rules are include rules. *)
Definition include_only (R : TagsFilter) : Prop :=
  Forall (fun r => fst r = true) (m_rules R).

(** An expression parses to a matcher. *)
Definition parses_to
    (get_filter_expression : string -> result (osm_entity_bits * string))
    (get_tag_matcher : string -> result TagMatcher)
    (e : string) (m : TagMatcher) : Prop :=
  exists p, get_filter_expression e = Ok p /\ get_tag_matcher (snd p) = Ok m.

(** The first line of a file, empty when the file cannot be read. *)
Definition first_line (content : option string) : string :=
  match content with
  | Some text => fst (fst (until_newline text))
  | None => ""
  end.




Fixpoint all_chars (p : ascii -> bool) (s : string) : bool :=
  match s with
  | EmptyString => true
  | String c rest => p c && all_chars p rest
  end.




Definition starts_with_digit (s : string) : Prop :=
  match s with
  | String c _ => isdigit c = true
  | EmptyString => False
  end.


End Spec.

(** ** Example inputs *)

Module Examples.
Import Osmium WaterwayIds IStream Rivermap.

Definition line_feed : string := String (ascii_of_nat 10) "".

Definition nodes_of (refs : list Z) : list NodeRef :=
  map (fun r => mkNodeRef r None) refs.

Definition river : Way :=
  mkWay 17 [("waterway", "river"); ("name", "Rhein")] (nodes_of [1; 2; 3]).

Definition road : Way :=
  mkWay 18 [("highway", "primary")] (nodes_of [4; 5]).

Definition pond : Way :=
  mkWay 19 [("natural", "water")] (nodes_of [6; 7; 8; 6]).

(** A multipolygon relation 6 with one outer and one inner ring. *)
Definition lake : Area :=
  mkArea (object_id_to_area_id 6 type_relation)
    [("natural", "water"); ("landuse", "basin")]
    [OuterRing (nodes_of [1; 2; 3; 1]); InnerRing (nodes_of [4; 5; 6; 4])].

(** A filter that also lets roads pass. *)
Definition road_filter : TagsFilter :=
  add_rule true (matcher_key "highway") (new_filter false).

(** An include rule followed by an exclude rule for the same tag. *)
Definition mixed_filter : TagsFilter :=
  add_rule false (matcher_key_value "natural" "water")
    (add_rule true (matcher_key "natural") (new_filter false)).

Definition rhine_csv : string :=
  "id,rsystem" +:+ line_feed +:+ "5,Rhine" +:+ line_feed +:+ "6,Rhine"
  +:+ line_feed +:+ "7,Danube".

(** A way with a waterway tag and a single node. *)
Definition stub : Way :=
  mkWay 20 [("waterway", "stream")] [mkNodeRef 9 (Some (1, 1))].

Definition located_river : Way :=
  mkWay 5 [("waterway", "river")]
    [mkNodeRef 1 (Some (10, 20)); mkNodeRef 2 (Some (11, 21))].

(** The files of a run whose rules file has a line that does not parse. *)
Definition bad_rules_files : gmap string string :=
  {[ "rules.txt" := "waterway" +:+ line_feed +:+ "=river" +:+ line_feed ]}.

Definition negated_rules_files : gmap string string :=
  {[ "rules.txt" := "!waterway=ditch" +:+ line_feed ]}.

Definition no_osm : OsmReader := fun _ => None.

End Examples.

(** ** Further vocabulary: the areas sink, the table invariant, the layer *)

Module Invariants.
Import Osmium WaterwayIds IStream Rivermap Spec.

(** The line of a way for a key it has. *)
Definition way_line (w : Way) (key : string) : list string :=
  match get_value_by_key (way_tags w) key with
  | Some v => [csv_line (way_id w) v (map ref (way_nodes w))]
  | None => []
  end.

(** The line of an area for a key it has. *)
Definition area_line (a : Area) (key : string) : list string :=
  match get_value_by_key (area_tags a) key with
  | Some v =>
      [csv_line (orig_id a) v
         (map ref (List.concat (outer_rings (area_rings a))))]
  | None => []
  end.

(** The lines the items of the input are due in the areas sink, in stream
    order: one for every accepted way without a waterway tag that has a
    natural or landuse tag, and one for every accepted area that has a
    natural or landuse tag. *)
Definition area_sink_lines (f : TagsFilter) (items : list Item)
  : list string :=
  flat_map
    (fun item =>
       match item with
       | ItemWay w =>
           if match_any_of (way_tags w) f
              && negb (has_key (way_tags w) "waterway")
           then match classifyAreaKey (way_tags w) with
                | Some key => way_line w key
                | None => []
                end
           else []
       | ItemArea a =>
           if match_any_of (area_tags a) f
           then match classifyAreaKey (area_tags a) with
                | Some key => area_line a key
                | None => []
                end
           else []
       end) items.

Definition no_line_feed (line : string) : Prop :=
  all_chars (fun c => negb (Ascii.eqb c (ascii_of_nat 10))) line = true.

(** The text of a file with the given lines, each ended by a line feed. *)
Definition unlines (lines : list string) : string :=
  text_of_lines (map (fun line => line +:+ endl) lines).

(** The table is sound: no two nodes of [m_names] hold the same name, and
    every pointer in the map is the buffer of a node that exists. *)
Definition table_ok (m : RiversystemMap) : Prop :=
  NoDup (m_names m)
  /\ forall id p,
       m_id2Name m !! id = Some p ->
       exists node name,
         p = c_str_of_name node /\ m_names m !! node = Some name.

(** The way gets a feature: it has a waterway tag and a line string. *)
Definition emits (create_linestring : Way -> linestring_result) (w : Way)
  : bool :=
  has_key (way_tags w) "waterway"
  && match create_linestring w with
     | linestring _ => true
     | _ => false
     end.

(** The way is reported and skipped: it has a waterway tag and its line
    string is illegal. *)
Definition skipped (create_linestring : Way -> linestring_result) (w : Way)
  : bool :=
  has_key (way_tags w) "waterway"
  && match create_linestring w with
     | geometry_error _ => true
     | _ => false
     end.

(** The way ends the run: it has a waterway tag and building its line
    string throws something else than a geometry error. *)
Definition throws_other (create_linestring : Way -> linestring_result)
    (w : Way) : bool :=
  has_key (way_tags w) "waterway"
  && match create_linestring w with
     | other_error _ => true
     | _ => false
     end.

(** The feature is the one of the way, with the river system the table
    gives: geometry, id, type and rsystem are set, name iff the way has a
    name tag, and nothing else. *)
Definition feature_of_way (create_linestring : Way -> linestring_result)
    (m : RiversystemMap) (w : Way) (feature : Feature) : Prop :=
  create_linestring w = linestring (geometry feature)
  /\ fields feature !! "id" = Some (real_field (double_of_long (way_id w)))
  /\ fields feature !! "type"
     = string_field <$> get_value_by_key (way_tags w) "waterway"
  /\ fields feature !! "rsystem"
     = Some (string_field (c_str_value m (getName m (way_id w))))
  /\ fields feature !! "name"
     = string_field <$> get_value_by_key (way_tags w) "name"
  /\ forall field,
       field <> "id" -> field <> "type" -> field <> "rsystem" ->
       field <> "name" -> fields feature !! field = None.

(** The line [MyOGRHandler::way] writes to standard error for a way whose
    geometry is illegal. *)
Definition illegal_geometry (w : Way) : string :=
  "Ignoring illegal geometry for way " +:+ pretty (way_id w) +:+ ".".

(** A way whose second node has no location. *)
Definition unlocated : Way :=
  mkWay 40 [("waterway", "canal")]
    [mkNodeRef 1 (Some (1, 1)); mkNodeRef 2 None].

Definition rules_files : gmap string string :=
  {[ "rules.txt" := "waterway" +:+ Examples.line_feed
                    +:+ "natural=water" +:+ Examples.line_feed ]}.

Definition one_river : OsmReader :=
  fun _ => Some (fun _ => [ItemWay Examples.river; ItemWay Examples.pond;
                           ItemArea Examples.lake; ItemWay Examples.road]).

End Invariants.

(** * Properties *)

(** ** Strings and sinks *)

Section Strings.

Lemma string_app_cons (x : ascii) (a b : string) :
  String x a +:+ b = String x (a +:+ b).
Proof. reflexivity. Qed.

Lemma string_app_nil_l (a : string) : "" +:+ a = a.
Proof. reflexivity. Qed.

Lemma string_app_assoc (a b c : string) :
  (a +:+ b) +:+ c = a +:+ (b +:+ c).
Proof.
  induction a as [|x a IH]; [reflexivity|].
  now rewrite !string_app_cons, IH.
Qed.

Lemma string_app_nil_r (a : string) : a +:+ "" = a.
Proof.
  induction a as [|x a IH]; [reflexivity|].
  now rewrite string_app_cons, IH.
Qed.

End Strings.

Section SinkFacts.
Import Osmium WaterwayIds Spec.

Lemma write_write (out : sink) (a b : string) (s : Sinks) :
  write out b (write out a s) = write out (a +:+ b) s.
Proof.
  destruct out, s; unfold write; simpl; now rewrite string_app_assoc.
Qed.

Lemma has_key_value (tags : TagList) (key : string) :
  has_key tags key = true <-> exists v, get_value_by_key tags key = Some v.
Proof.
  unfold has_key. destruct (get_value_by_key tags key) as [v|].
  - split; [eauto | reflexivity].
  - split; [discriminate | intros [v Hv]; discriminate].
Qed.

(** The node fields, one after the other, are the tail of a list of fields
    joined by commas. *)
Lemma concat_node_fields (first : string) (nodes : list NodeRef) :
  String.concat "," (first :: map pretty (map ref nodes))
  = first +:+ node_fields nodes.
Proof.
  revert first. induction nodes as [|nr nodes IH]; intros first.
  - simpl. now rewrite string_app_nil_r.
  - change (String.concat "," (first :: map pretty (map ref (nr :: nodes))))
      with (first +:+ "," +:+
            String.concat "," (pretty (ref nr) :: map pretty (map ref nodes))).
    rewrite IH. reflexivity.
Qed.

Lemma ring_fields_concat (rings : list (list NodeRef)) :
  ring_fields rings = node_fields (List.concat rings).
Proof.
  induction rings as [|ring rings IH]; simpl; [reflexivity|].
  rewrite IH. clear IH.
  induction ring as [|nr ring IH]; simpl; [reflexivity|].
  now rewrite !string_app_assoc, IH.
Qed.

Lemma csv_line_fields (id : Z) (v : string) (nodes : list NodeRef) :
  csv_line id v (map ref nodes)
  = (pretty id +:+ "," +:+ v) +:+ node_fields nodes +:+ endl.
Proof.
  unfold csv_line.
  change (String.concat "," (pretty id :: v :: map pretty (map ref nodes)))
    with (pretty id +:+ "," +:+
          String.concat "," (v :: map pretty (map ref nodes))).
  rewrite concat_node_fields. now rewrite !string_app_assoc.
Qed.

(** [output_waterway] writes one line of the CSV format. *)
Lemma output_waterway_line (w : Way) (key v : string) (out : sink)
    (s : Sinks) :
  get_value_by_key (way_tags w) key = Some v ->
  output_waterway w key out s
  = write out (csv_line (way_id w) v (map ref (way_nodes w))) s.
Proof.
  intros Hv. unfold output_waterway. rewrite Hv.
  now rewrite !write_write, csv_line_fields, !string_app_assoc.
Qed.

(** [output_area] writes one line too, with the nodes of the outer rings. *)
Lemma output_area_line (a : Area) (key v : string) (out : sink)
    (s : Sinks) :
  get_value_by_key (area_tags a) key = Some v ->
  output_area a key out s
  = write out
      (csv_line (orig_id a) v
         (map ref (List.concat (outer_rings (area_rings a))))) s.
Proof.
  intros Hv. unfold output_area. rewrite Hv.
  now rewrite !write_write, csv_line_fields, ring_fields_concat,
    !string_app_assoc.
Qed.

End SinkFacts.

(** ** Classification of ways *)

Section Classification.
Import Osmium WaterwayIds Spec.

(** C1: for a way the filter accepts, the classifying key is the first key
    of waterway, natural, landuse that the tags have; a way classified by
    waterway is written to the ways sink and one classified by natural or
    landuse to the areas sink, as one line with the value of the chosen
    key as its type field. *)
Theorem way_classified_by_first_key (f : TagsFilter) (w : Way) (s : Sinks) :
  match_any_of (way_tags w) f = true ->
  match classifyKey (way_tags w) with
  | Some key =>
      (exists before after,
         classifying_keys = (before ++ key :: after)%list
         /\ Forall (fun k => has_key (way_tags w) k = false) before)
      /\ exists v,
         get_value_by_key (way_tags w) key = Some v
         /\ way f w s
            = write (sink_of_key key)
                (csv_line (way_id w) v (map ref (way_nodes w))) s
  | None =>
      Forall (fun k => has_key (way_tags w) k = false) classifying_keys
      /\ way f w s = s
  end.
Proof.
  intros Hacc. unfold way, classifyKey, classifying_keys. rewrite Hacc.
  cbn [List.find].
  destruct (has_key (way_tags w) "waterway") eqn:Hw.
  { split; [exists [], ["natural"; "landuse"]; split; [reflexivity | constructor]|].
    destruct (proj1 (has_key_value _ _) Hw) as [v Hv].
    exists v. split; [exact Hv|]. now apply output_waterway_line. }
  destruct (has_key (way_tags w) "natural") eqn:Hn.
  { split; [exists ["waterway"], ["landuse"]; split; [reflexivity | repeat constructor; exact Hw]|].
    destruct (proj1 (has_key_value _ _) Hn) as [v Hv].
    exists v. split; [exact Hv|]. now apply output_waterway_line. }
  destruct (has_key (way_tags w) "landuse") eqn:Hl.
  { split; [exists ["waterway"; "natural"], []; split; [reflexivity | repeat constructor; assumption]|].
    destruct (proj1 (has_key_value _ _) Hl) as [v Hv].
    exists v. split; [exact Hv|]. now apply output_waterway_line. }
  split; [repeat constructor; assumption | reflexivity].
Qed.

(** The example of the specification: with the tags natural=water and
    landuse=basin the key is natural, and the line goes to the areas
    sink. *)
Lemma way_classified_by_first_key_witness :
  match_any_of [("natural", "water"); ("landuse", "basin")] builtin_filter
  = true
  /\ classifyKey [("natural", "water"); ("landuse", "basin")]
     = Some "natural"
  /\ way builtin_filter
       (mkWay 21 [("natural", "water"); ("landuse", "basin")]
          (Examples.nodes_of [1; 2; 1]))
       (mkSinks "" "")
     = mkSinks "" ("21,water,1,2,1" +:+ Examples.line_feed).
Proof.
  split; [reflexivity|]. split; [reflexivity|].
  pose proof (way_classified_by_first_key builtin_filter
    (mkWay 21 [("natural", "water"); ("landuse", "basin")]
       (Examples.nodes_of [1; 2; 1]))
    (mkSinks "" "") eq_refl) as H.
  match type of H with
  | match ?k with _ => _ end => change k with (Some "natural") in H
  end.
  destruct H as [_ [v [Hv H]]].
  vm_compute in Hv. injection Hv as <-. rewrite H. reflexivity.
Defined.

End Classification.

(** ** The tag filter *)

Section FilterSemantics.
Import Osmium WaterwayIds Spec.

(** The result of the rules for a tag is the result of the first rule that
    matches it. *)
Lemma rules_result_first (rules : list (bool * TagMatcher)) (t : Tag) :
  rules_result rules false t = true <->
  exists before r after,
    rules = (before ++ r :: after)%list
    /\ fst r = true /\ tag_match (snd r) t = true
    /\ Forall (fun r' => tag_match (snd r') t = false) before.
Proof.
  induction rules as [|[result m] rules IH]; simpl.
  - split; [discriminate|].
    intros (before & r & after & H & _). destruct before; discriminate.
  - destruct (tag_match m t) eqn:Hm.
    + split.
      * intros ->. exists [], (true, m), rules. repeat split; auto.
      * intros (before & r & after & H & Hr & Hrm & Hb).
        destruct before as [|b before]; simpl in H.
        -- injection H as <- _. exact Hr.
        -- injection H as <- _. inversion Hb as [|? ? Hb1 _]; subst.
           simpl in Hb1. congruence.
    + rewrite IH. split.
      * intros (before & r & after & H & Hr & Hrm & Hb).
        exists ((result, m) :: before), r, after. subst rules.
        repeat split; auto.
      * intros (before & r & after & H & Hr & Hrm & Hb).
        destruct before as [|b before]; simpl in H.
        -- injection H as <- _. simpl in Hrm. congruence.
        -- injection H as <- ->. inversion Hb; subst.
           exists before, r, after. repeat split; auto.
Qed.

(** An include rule that matches, with no exclude rule that matches,
    is enough. *)
Lemma rules_result_include (rules : list (bool * TagMatcher)) (dflt : bool)
    (t : Tag) :
  existsb (fun r => fst r && tag_match (snd r) t) rules = true ->
  existsb (fun r => negb (fst r) && tag_match (snd r) t) rules = false ->
  rules_result rules dflt t = true.
Proof.
  induction rules as [|[result m] rules IH]; simpl; [discriminate|].
  intros Hi He. destruct (tag_match m t), result; simpl in *;
    try reflexivity; try discriminate; auto.
Qed.

(** Without exclude rules the order of the rules does not matter. *)
Lemma rules_result_include_only (rules : list (bool * TagMatcher))
    (t : Tag) :
  Forall (fun r => fst r = true) rules ->
  rules_result rules false t
  = existsb (fun r => tag_match (snd r) t) rules
  /\ existsb (fun r => fst r && tag_match (snd r) t) rules
     = existsb (fun r => tag_match (snd r) t) rules
  /\ existsb (fun r => negb (fst r) && tag_match (snd r) t) rules = false.
Proof.
  induction 1 as [|[result m] rules Hr _ IH]; simpl; [auto|].
  simpl in Hr. subst result. destruct IH as (IH1 & IH2 & IH3).
  rewrite IH1, IH2, IH3. destruct (tag_match m t); auto.
Qed.

Lemma builtin_filter_include_only :
  include_only builtin_filter /\ m_default_result builtin_filter = false.
Proof. split; [repeat constructor | reflexivity]. Qed.

(** Whatever the expressions parse to, a filter read from a rules file
    has include rules only. *)
Lemma read_expressions_include_only
    (get_filter_expression : string -> result (osm_entity_bits * string))
    (get_tag_matcher : string -> result TagMatcher)
    (lines : list string) (f f' : TagsFilter) :
  read_expressions get_filter_expression get_tag_matcher lines f = Ok f' ->
  include_only f ->
  include_only f' /\ m_default_result f' = m_default_result f.
Proof.
  revert f. induction lines as [|line lines IH]; intros f; simpl.
  - intros [= <-]; auto.
  - destruct (expression_of_line line) as [e|]; [|apply IH].
    unfold parse_and_add_expression.
    destruct (get_filter_expression e) as [p|]; [|discriminate].
    destruct (get_tag_matcher (snd p)) as [m|]; [|discriminate].
    intros H Hf. apply IH in H.
    + exact H.
    + unfold include_only, add_rule. simpl. apply Forall_app. split; auto.
Qed.

(** C2, as the code has it: a filter whose default is to exclude accepts
    the tags iff, for some tag, the first rule in list order that matches
    the tag is an include rule.  A tag that an include rule matches and no
    exclude rule matches is accepted; the converse fails when an exclude
    rule follows the include rule.  Filters with include rules only, as
    the compiled-in one and every one read from a rules file, accept iff
    some rule matches some tag. *)
Theorem match_any_of_first_rule (R : TagsFilter) (T : TagList) :
  m_default_result R = false ->
  (match_any_of T R = true <->
   exists t before r after,
     In t T
     /\ m_rules R = (before ++ r :: after)%list
     /\ fst r = true /\ tag_match (snd r) t = true
     /\ Forall (fun r' => tag_match (snd r') t = false) before)
  /\ (matches R T = true -> match_any_of T R = true)
  /\ (include_only R ->
      match_any_of T R = matches R T
      /\ (match_any_of T R = true <->
          exists t r, In t T /\ In r (m_rules R)
                      /\ tag_match (snd r) t = true))
  /\ include_only builtin_filter
  /\ (forall gfe gtm lines f',
        read_expressions gfe gtm lines (new_filter false) = Ok f' ->
        include_only f' /\ m_default_result f' = false).
Proof.
  intros Hd. unfold match_any_of, filter_tag. rewrite Hd.
  split; [|split; [|split; [|split]]].
  - rewrite existsb_exists. split.
    + intros (t & Ht & Hr). apply rules_result_first in Hr.
      destruct Hr as (before & r & after & Hr). exists t, before, r, after.
      tauto.
    + intros (t & before & r & after & Ht & Hr). exists t. split; [exact Ht|].
      apply rules_result_first. exists before, r, after. exact Hr.
  - unfold matches. rewrite !existsb_exists.
    intros (t & Ht & Hm). exists t. split; [exact Ht|].
    apply andb_true_iff in Hm. destruct Hm as [Hi He].
    apply negb_true_iff in He. now apply rules_result_include.
  - intros Hinc. assert (Heq :
      existsb (rules_result (m_rules R) false) T = matches R T
      /\ existsb (rules_result (m_rules R) false) T
         = existsb (fun t => existsb (fun r => tag_match (snd r) t)
                               (m_rules R)) T).
    { unfold matches, include_matches, exclude_matches.
      induction T as [|t T IH]; simpl; [auto|].
      destruct (rules_result_include_only (m_rules R) t Hinc)
        as (H1 & H2 & H3).
      destruct IH as [IH1 IH2].
      rewrite H1, H2, H3, IH1. split; [|rewrite <- IH2, IH1].
      - now rewrite andb_true_r.
      - reflexivity. }
    destruct Heq as [Heq1 Heq2]. split; [exact Heq1|].
    match goal with
    | |- ?x = true <-> _ =>
        change x with (existsb (rules_result (m_rules R) false) T)
    end.
    rewrite Heq2, existsb_exists. split.
    + intros (t & Ht & Hr). apply existsb_exists in Hr.
      destruct Hr as (r & Hr & Hm). exists t, r. auto.
    + intros (t & r & Ht & Hr & Hm). exists t. split; [exact Ht|].
      apply existsb_exists. exists r. auto.
  - apply builtin_filter_include_only.
  - intros gfe gtm lines f' H.
    apply read_expressions_include_only in H; [exact H | constructor].
Qed.

Lemma match_any_of_first_rule_witness :
  m_default_result builtin_filter = false
  /\ match_any_of [("natural", "water"); ("name", "Bodensee")]
       builtin_filter
     = matches builtin_filter [("natural", "water"); ("name", "Bodensee")].
Proof.
  split; [reflexivity|].
  destruct (match_any_of_first_rule builtin_filter
              [("natural", "water"); ("name", "Bodensee")] eq_refl)
    as (_ & _ & H & _).
  exact (proj1 (H (proj1 builtin_filter_include_only))).
Defined.

(** C2 as stated fails: the exclude rule of [mixed_filter] matches the tag
    natural=water, and the tags are accepted all the same, because the
    include rule before it matches first. *)
Lemma matches_ignores_later_exclude :
  include_matches Examples.mixed_filter ("natural", "water") = true
  /\ exclude_matches Examples.mixed_filter ("natural", "water") = true
  /\ matches Examples.mixed_filter [("natural", "water")] = false
  /\ match_any_of [("natural", "water")] Examples.mixed_filter = true.
Proof. repeat split. Qed.

End FilterSemantics.

(** ** The second pass of osmium_waterway_ids *)

Section SecondPass.
Import Osmium WaterwayIds Spec.

Lemma text_of_lines_app (a b : list string) :
  text_of_lines (a ++ b) = text_of_lines a +:+ text_of_lines b.
Proof.
  induction a as [|x a IH]; simpl; [reflexivity|].
  now rewrite IH, string_app_assoc.
Qed.

(** An area never reaches the ways sink. *)
Lemma area_waystream (f : TagsFilter) (a : Area) (s : Sinks) :
  waystream (area f a s) = waystream s.
Proof.
  unfold area, output_area.
  destruct (match_any_of (area_tags a) f); [|reflexivity].
  destruct (has_key (area_tags a) "natural").
  { destruct (get_value_by_key (area_tags a) "natural"); reflexivity. }
  destruct (has_key (area_tags a) "landuse"); [|reflexivity].
  destruct (get_value_by_key (area_tags a) "landuse"); reflexivity.
Qed.

(** What one way adds to the ways sink. *)
Lemma way_waystream (f : TagsFilter) (w : Way) (s : Sinks) :
  waystream (way f w s)
  = waystream s +:+ text_of_lines (way_sink_lines f [ItemWay w]).
Proof.
  unfold way, way_sink_lines, has_key. simpl flat_map.
  rewrite app_nil_r.
  destruct (get_value_by_key (way_tags w) "waterway") as [v|] eqn:Hv.
  - destruct (match_any_of (way_tags w) f).
    + rewrite (output_waterway_line _ _ _ _ _ Hv). simpl.
      now rewrite string_app_nil_r.
    + simpl. now rewrite string_app_nil_r.
  - simpl. rewrite string_app_nil_r.
    destruct (match_any_of (way_tags w) f); [|reflexivity].
    unfold output_waterway.
    destruct (get_value_by_key (way_tags w) "natural").
    { reflexivity. }
    destruct (get_value_by_key (way_tags w) "landuse"); reflexivity.
Qed.

Lemma way_sink_lines_cons (f : TagsFilter) (item : Item)
    (items : list Item) :
  way_sink_lines f (item :: items)
  = (way_sink_lines f [item] ++ way_sink_lines f items)%list.
Proof. unfold way_sink_lines. simpl. now rewrite app_nil_r. Qed.

(** The ways sink after the pass holds the lines of the accepted ways
    with a waterway tag, in stream order, and nothing else. *)
Lemma apply_waystream (f : TagsFilter) (items : list Item) (s : Sinks) :
  waystream (apply f items s)
  = waystream s +:+ text_of_lines (way_sink_lines f items).
Proof.
  revert s. induction items as [|[w|a] items IH]; intros s.
  - simpl. now rewrite string_app_nil_r.
  - change (apply f (ItemWay w :: items) s)
      with (apply f items (way f w s)).
    rewrite (way_sink_lines_cons f (ItemWay w) items).
    rewrite IH, way_waystream, text_of_lines_app.
    now rewrite string_app_assoc.
  - change (apply f (ItemArea a :: items) s)
      with (apply f items (area f a s)).
    rewrite IH, area_waystream. reflexivity.
Qed.

(** C3, as the code has it: a way that the filter accepts and that has a
    waterway tag appears exactly once in the ways sink, at its place in
    stream order, as one comma-delimited line of its id, the value of the
    waterway tag and its node ids in way order. *)
Theorem accepted_waterway_written_once (f : TagsFilter)
    (before after : list Item) (w : Way) (v : string) (s : Sinks) :
  match_any_of (way_tags w) f = true ->
  get_value_by_key (way_tags w) "waterway" = Some v ->
  waystream (apply f (before ++ ItemWay w :: after) s)
  = waystream s
    +:+ text_of_lines (way_sink_lines f before)
    +:+ String.concat ","
          (pretty (way_id w) :: v :: map pretty (map ref (way_nodes w)))
    +:+ endl
    +:+ text_of_lines (way_sink_lines f after).
Proof.
  intros Hacc Hv.
  rewrite apply_waystream. unfold way_sink_lines.
  rewrite flat_map_app, text_of_lines_app. simpl flat_map.
  rewrite Hv, Hacc. rewrite text_of_lines_app. simpl text_of_lines.
  unfold csv_line. now rewrite string_app_nil_r, !string_app_assoc.
Qed.

(** The end-to-end scenario of the specification. *)
Lemma accepted_waterway_written_once_witness :
  apply builtin_filter
    ([ItemWay Examples.road] ++ ItemWay Examples.river :: [])
    (mkSinks "" "")
  = mkSinks ("17,river,1,2,3" +:+ Examples.line_feed) "".
Proof.
  pose proof (accepted_waterway_written_once builtin_filter
                [ItemWay Examples.road] [] Examples.river "river"
                (mkSinks "" "") eq_refl eq_refl) as H.
  destruct (apply builtin_filter
              ([ItemWay Examples.road] ++ ItemWay Examples.river :: [])
              (mkSinks "" "")) as [ways areas] eqn:Hrun.
  simpl waystream in H. rewrite H.
  vm_compute in Hrun. injection Hrun as _ <-. reflexivity.
Defined.

(** C3 as stated fails: the filter accepts the pond, a way tagged
    natural=water, and its line is in the areas sink, not the ways sink. *)
Lemma accepted_way_not_in_ways_sink :
  match_any_of (way_tags Examples.pond) builtin_filter = true
  /\ apply builtin_filter [ItemWay Examples.pond] (mkSinks "" "")
     = mkSinks "" ("19,water,6,7,8,6" +:+ Examples.line_feed).
Proof. split; reflexivity. Qed.

(** C9: a way that matches the filter but has none of the keys waterway,
    natural and landuse leaves both sinks as they are. *)
Theorem unclassified_way_dropped (f : TagsFilter) (w : Way) (s : Sinks) :
  match_any_of (way_tags w) f = true ->
  has_key (way_tags w) "waterway" = false ->
  has_key (way_tags w) "natural" = false ->
  has_key (way_tags w) "landuse" = false ->
  way f w s = s.
Proof.
  intros Hacc Hw Hn Hl. unfold way. now rewrite Hacc, Hw, Hn, Hl.
Qed.

Lemma unclassified_way_dropped_witness :
  match_any_of (way_tags Examples.road) Examples.road_filter = true
  /\ apply Examples.road_filter [ItemWay Examples.road] (mkSinks "" "")
     = mkSinks "" "".
Proof.
  split; [reflexivity|]. simpl apply.
  apply (unclassified_way_dropped Examples.road_filter Examples.road);
    reflexivity.
Defined.

End SecondPass.

(** ** Areas *)

Section Areas.
Import Osmium WaterwayIds Spec.

(** The id of the way or relation an area was made from is recovered from
    the area id, as long as doubling it does not overflow. *)
Lemma area_id_round_trip (id : Z) (type : item_type) :
  area_id_to_object_id (object_id_to_area_id id type) = id.
Proof.
  unfold area_id_to_object_id, object_id_to_area_id.
  destruct (Z.ltb_spec id 0) as [Hneg|Hpos]; destruct type.
  - rewrite Z.abs_neq by lia. rewrite Z.quot_opp_l by lia.
    rewrite Z.quot_mul by lia. lia.
  - rewrite Z.abs_neq by lia. rewrite Z.quot_opp_l by lia.
    assert (H : (- id * 2 + 1) ÷ 2 = - id).
    { rewrite Z.quot_div_nonneg by lia.
      symmetry. apply (Z.div_unique_pos _ _ _ 1); lia. }
    rewrite H. lia.
  - rewrite Z.abs_eq by lia. now rewrite Z.quot_mul by lia.
  - rewrite Z.abs_eq by lia. rewrite Z.quot_div_nonneg by lia.
    symmetry. apply (Z.div_unique_pos _ _ _ 1); lia.
Qed.

(** C4: the record of an accepted area starts with the id of the way or
    relation the area was made from, then has the value of the classifying
    tag, then the node ids of every outer ring in ring order; the nodes
    of inner rings are not part of it. *)
Theorem area_record (f : TagsFilter) (a : Area) (id : Z) (type : item_type)
    (s : Sinks) :
  match_any_of (area_tags a) f = true ->
  area_id a = object_id_to_area_id id type ->
  match classifyAreaKey (area_tags a) with
  | Some key =>
      exists v,
        get_value_by_key (area_tags a) key = Some v
        /\ area f a s
           = write to_areastream
               (csv_line id v
                  (map ref (List.concat (outer_rings (area_rings a))))) s
  | None => area f a s = s
  end.
Proof.
  intros Hacc Hid. unfold area, classifyAreaKey. rewrite Hacc.
  cbn [List.find].
  assert (Ho : orig_id a = id).
  { unfold orig_id. rewrite Hid. apply area_id_round_trip. }
  destruct (has_key (area_tags a) "natural") eqn:Hn.
  { destruct (proj1 (has_key_value _ _) Hn) as [v Hv].
    exists v. split; [exact Hv|].
    rewrite (output_area_line _ _ _ _ _ Hv). now rewrite Ho. }
  destruct (has_key (area_tags a) "landuse") eqn:Hl; [|reflexivity].
  destruct (proj1 (has_key_value _ _) Hl) as [v Hv].
  exists v. split; [exact Hv|].
  rewrite (output_area_line _ _ _ _ _ Hv). now rewrite Ho.
Qed.

(** The example of the specification: one outer ring of four nodes and
    one inner ring of four nodes give a record with four node ids. *)
Lemma area_record_witness :
  match_any_of (area_tags Examples.lake) builtin_filter = true
  /\ area_id Examples.lake = 13
  /\ area builtin_filter Examples.lake (mkSinks "" "")
     = mkSinks "" ("6,water,1,2,3,1" +:+ Examples.line_feed).
Proof.
  split; [reflexivity|]. split; [reflexivity|].
  pose proof (area_record builtin_filter Examples.lake 6 type_relation
                (mkSinks "" "") eq_refl eq_refl) as H.
  match type of H with
  | match ?k with _ => _ end => change k with (Some "natural") in H
  end.
  destruct H as [v [Hv H]].
  vm_compute in Hv. injection Hv as <-. rewrite H. reflexivity.
Defined.

End Areas.

(** ** Loading the rules file *)

Section RulesFile.
Import Osmium WaterwayIds Spec.

Variable get_filter_expression : string -> result (osm_entity_bits * string).
Variable get_tag_matcher : string -> result TagMatcher.

Local Abbreviation parse :=
  (parse_and_add_expression get_filter_expression get_tag_matcher).
Local Abbreviation read :=
  (read_expressions get_filter_expression get_tag_matcher).

Local Abbreviation parses_to :=
  (Spec.parses_to get_filter_expression get_tag_matcher).

(** Whether an expression parses does not depend on the filter. *)
Lemma parse_throw_any_filter (e what : string) (f f' : TagsFilter) :
  parse e f = Throw what -> parse e f' = Throw what.
Proof.
  unfold parse_and_add_expression.
  destruct (get_filter_expression e) as [p|]; [|auto].
  destruct (get_tag_matcher (snd p)); [discriminate | auto].
Qed.

Lemma parse_ok (e : string) (f f' : TagsFilter) :
  parse e f = Ok f' <->
  exists m, parses_to e m /\ f' = add_rule true m f.
Proof.
  unfold parse_and_add_expression, parses_to. split.
  - destruct (get_filter_expression e) as [p|]; [|discriminate].
    destruct (get_tag_matcher (snd p)) as [m|] eqn:Hm; [|discriminate].
    intros [= <-]. exists m. split; [exists p; auto | reflexivity].
  - intros (m & (p & -> & ->) & ->). reflexivity.
Qed.

(** One line that does not parse fails the whole file. *)
Lemma read_expressions_fail_fast (lines : list string) (line e what : string)
    (f0 f : TagsFilter) :
  In line lines ->
  expression_of_line line = Some e ->
  parse e f0 = Throw what ->
  exists what', read lines f = Throw what'.
Proof.
  intros Hin He Hp. revert f.
  induction lines as [|l lines IH]; intros f; [destruct Hin|].
  simpl. destruct Hin as [->|Hin].
  - rewrite He, (parse_throw_any_filter _ _ _ f Hp). eauto.
  - destruct (expression_of_line l) as [e'|]; [|auto].
    destruct (parse e' f); [auto | eauto].
Qed.

(** The text up to the first hash sign. *)
Lemma erase_from_hash_prefix (line : string) :
  exists rest,
    line = erase_from_hash line +:+ rest
    /\ all_chars (fun c => negb (Ascii.eqb c "#")) (erase_from_hash line)
       = true
    /\ (rest = "" \/ exists rest', rest = String "#" rest').
Proof.
  induction line as [|c line (rest & IH1 & IH2 & IH3)]; simpl.
  - exists "". auto.
  - destruct (Ascii.eqb_spec c "#") as [->|Hc].
    + exists (String "#" line). rewrite string_app_nil_l. eauto.
    + exists rest. rewrite string_app_cons, <- IH1. simpl.
      rewrite IH2. apply Ascii.eqb_neq in Hc. rewrite Hc. auto.
Qed.

Lemma back_drop_back (line : string) (c : ascii) :
  back line = Some c -> line = drop_back line +:+ String c "".
Proof.
  induction line as [|x line IH]; [discriminate|].
  destruct line as [|y line].
  - intros [= ->]. reflexivity.
  - intros H. change (String x (String y line) =
                      String x (drop_back (String y line) +:+ String c "")).
    f_equal. apply IH. exact H.
Qed.

(** What a line hands to the parser. *)
Lemma expression_of_line_cases (line : string) :
  match expression_of_line line with
  | None => erase_from_hash line = ""
  | Some e =>
      erase_from_hash line <> ""
      /\ (erase_from_hash line = e +:+ String carriage_return ""
          \/ erase_from_hash line = e
             /\ back e <> Some carriage_return)
  end.
Proof.
  unfold expression_of_line.
  destruct (String.eqb_spec (erase_from_hash line) "") as [H|H]; [exact H|].
  destruct (back (erase_from_hash line)) as [c|] eqn:Hb.
  - destruct (Ascii.eqb_spec c carriage_return) as [->|Hc].
    + split; [exact H|]. left. now apply back_drop_back.
    + split; [exact H|]. right. split; [reflexivity|]. congruence.
  - split; [exact H|]. right. split; [reflexivity | congruence].
Qed.

(** The rules a file adds: one include rule for each line that hands an
    expression to the parser, in the order of the lines. *)
Lemma read_expressions_rules (lines : list string) (f f' : TagsFilter) :
  read lines f = Ok f' ->
  exists matchers,
    Forall2 parses_to (omap expression_of_line lines) matchers
    /\ m_rules f' = (m_rules f ++ map (pair true) matchers)%list
    /\ m_default_result f' = m_default_result f.
Proof.
  revert f. induction lines as [|line lines IH]; intros f; simpl.
  - intros [= <-]. exists []. split; [constructor|].
    now rewrite app_nil_r.
  - destruct (expression_of_line line) as [e|]; [|apply IH].
    destruct (parse e f) as [f1|] eqn:Hp; [|discriminate].
    apply parse_ok in Hp. destruct Hp as (m & Hm & ->).
    intros H. apply IH in H. destruct H as (ms & Hms & Hr & Hd).
    exists (m :: ms). split; [constructor; assumption|].
    rewrite Hr, Hd. unfold add_rule. simpl.
    now rewrite <- app_assoc.
Qed.

(** Whatever the two functions of util.cpp do: of every line the text from
    the first hash sign on is dropped; a line that is empty then adds no
    rule; of any other line a trailing carriage return is dropped and what
    is left is parsed into exactly one rule, which is always an include
    rule; a line that does not parse fails the whole load, and no filter is
    returned. *)
Lemma read_expressions_any_parser (lines : list string) (f : TagsFilter) :
  (forall line, In line lines ->
     (exists rest,
        line = erase_from_hash line +:+ rest
        /\ all_chars (fun c => negb (Ascii.eqb c "#")) (erase_from_hash line)
           = true
        /\ (rest = "" \/ exists rest', rest = String "#" rest'))
     /\ match expression_of_line line with
        | None => erase_from_hash line = ""
        | Some e =>
            erase_from_hash line <> ""
            /\ (erase_from_hash line = e +:+ String carriage_return ""
                \/ erase_from_hash line = e
                   /\ back e <> Some carriage_return)
        end)
  /\ (forall f', read lines f = Ok f' ->
        exists matchers,
          Forall2 parses_to (omap expression_of_line lines) matchers
          /\ m_rules f' = (m_rules f ++ map (pair true) matchers)%list
          /\ m_default_result f' = m_default_result f)
  /\ (forall line e what,
        In line lines -> expression_of_line line = Some e ->
        parse e (new_filter false) = Throw what ->
        exists what', read lines f = Throw what').
Proof.
  split; [|split].
  - intros line _. split;
      [apply erase_from_hash_prefix | apply expression_of_line_cases].
  - apply read_expressions_rules.
  - intros line e what Hin He Hp.
    now apply (read_expressions_fail_fast lines line e what
                 (new_filter false) f).
Qed.

(** A line that holds a carriage return only is not skipped: the empty
    expression goes to the parser, which adds a rule or throws. *)
Lemma blank_crlf_line_parsed (f : TagsFilter) :
  expression_of_line (String carriage_return "") = Some ""
  /\ read [String carriage_return ""] f <> Ok f.
Proof.
  split; [reflexivity|]. simpl.
  destruct (parse "" f) as [f'|] eqn:Hp; [|discriminate].
  apply parse_ok in Hp. destruct Hp as (m & _ & ->).
  intros [= H]. destruct f as [rules d]. unfold add_rule in H. simpl in H.
  injection H as H. apply (f_equal (@length _)) in H.
  rewrite length_app in H. simpl in H. lia.
Qed.

(** C5, as the code has it: the two output files are created when the
    handler is constructed, before the rules file is read.  When the rules
    file is not one of the two output files, a line of it that does not
    parse ends the run with exit code 1 before the input is read and
    before any record is written; both output files exist then and are
    empty, and no other file is touched. *)
Theorem malformed_rules_abort (osm : OsmReader)
    (osmfile filterfile wayfile areafile text line e what : string)
    (fs : gmap string string) :
  filterfile <> wayfile -> filterfile <> areafile ->
  fs !! filterfile = Some text ->
  In line (getlines text) ->
  expression_of_line line = Some e ->
  parse e (new_filter false) = Throw what ->
  let out := main get_filter_expression get_tag_matcher osm
               [osmfile; filterfile; wayfile; areafile] fs in
  exit_code out = 1
  /\ files out !! wayfile = Some ""
  /\ files out !! areafile = Some ""
  /\ (forall path, path <> wayfile -> path <> areafile ->
        files out !! path = fs !! path)
  /\ (forall osm',
        main get_filter_expression get_tag_matcher osm'
          [osmfile; filterfile; wayfile; areafile] fs = out).
Proof.
  intros Hw Ha Hfs Hin He Hp.
  assert (Hread : exists what',
    read_expressions_file get_filter_expression get_tag_matcher
      (open_sinks wayfile areafile fs) filterfile (new_filter false)
    = Throw what').
  { unfold read_expressions_file, open_sinks.
    rewrite !lookup_insert_ne by congruence. rewrite Hfs.
    now apply (read_expressions_fail_fast _ line e what (new_filter false)). }
  destruct Hread as [what' Hread].
  unfold main. cbv zeta. rewrite Hread. simpl exit_code. simpl files.
  unfold close_sinks, open_sinks. simpl.
  split; [reflexivity|]. split; [|split; [|split]].
  - destruct (decide (areafile = wayfile)) as [->|Hne].
    + now rewrite lookup_insert_eq.
    + rewrite lookup_insert_ne by congruence. now rewrite lookup_insert_eq.
  - now rewrite lookup_insert_eq.
  - intros path H1 H2. now rewrite !lookup_insert_ne by congruence.
  - reflexivity.
Qed.

End RulesFile.

Section RulesFileExamples.
Import Osmium WaterwayIds Spec.

Lemma split_at_equals_key (key : string) :
  all_chars (fun c => negb (Ascii.eqb c "=")) key = true ->
  UtilSpec.split_at_equals key = (key, None)
  /\ forall value,
       UtilSpec.split_at_equals (key +:+ "=" +:+ value) = (key, Some value).
Proof.
  induction key as [|c key IH]; intros Hkey.
  - split; reflexivity.
  - cbn [all_chars] in Hkey. apply andb_true_iff in Hkey.
    destruct Hkey as [Hc Hkey]. apply negb_true_iff in Hc.
    destruct (IH Hkey) as [IH1 IH2]. split.
    + cbn [UtilSpec.split_at_equals]. now rewrite Hc, IH1.
    + intros value. rewrite string_app_cons.
      cbn [UtilSpec.split_at_equals]. now rewrite Hc, IH2.
Qed.

(** The grammar of the filter expressions: a bare key matches any value of
    the key, and key=value matches that value only. *)
Lemma get_tag_matcher_grammar (c : ascii) (key value : string) :
  c <> "!"%char ->
  all_chars (fun c => negb (Ascii.eqb c "=")) (String c key) = true ->
  UtilSpec.get_tag_matcher (String c key) = Ok (matcher_key (String c key))
  /\ UtilSpec.get_tag_matcher (String c key +:+ "=" +:+ value)
     = Ok (matcher_key_value (String c key) value).
Proof.
  intros Hc Hkey. apply Ascii.eqb_neq in Hc.
  destruct (split_at_equals_key (String c key) Hkey) as [H1 H2].
  unfold UtilSpec.get_tag_matcher. split.
  - rewrite Hc, H1. reflexivity.
  - rewrite string_app_cons, Hc, <- string_app_cons, H2. reflexivity.
Qed.

(** C6, as the code has it: of every line the text from the first hash
    sign on is dropped; a line that is empty then adds no rule; of any
    other line a trailing carriage return is dropped and what is left is
    parsed into exactly one rule, which is always an include rule, also
    when the line starts with an exclamation mark; a bare key gives a rule
    for any value of the key and key=value a rule for that value; a line
    that does not parse fails the whole load, and no filter is returned. *)
Theorem rules_file_loading (lines : list string) (f : TagsFilter) :
  (forall line, In line lines ->
     (exists rest,
        line = erase_from_hash line +:+ rest
        /\ all_chars (fun c => negb (Ascii.eqb c "#")) (erase_from_hash line)
           = true
        /\ (rest = "" \/ exists rest', rest = String "#" rest'))
     /\ match expression_of_line line with
        | None => erase_from_hash line = ""
        | Some e =>
            erase_from_hash line <> ""
            /\ (erase_from_hash line = e +:+ String carriage_return ""
                \/ erase_from_hash line = e
                   /\ back e <> Some carriage_return)
        end)
  /\ (forall f',
        read_expressions UtilSpec.get_filter_expression
          UtilSpec.get_tag_matcher lines f = Ok f' ->
        exists matchers,
          Forall2 (fun e m => UtilSpec.get_tag_matcher e = Ok m)
            (omap expression_of_line lines) matchers
          /\ m_rules f' = (m_rules f ++ map (pair true) matchers)%list
          /\ m_default_result f' = m_default_result f)
  /\ (forall line e what,
        In line lines -> expression_of_line line = Some e ->
        UtilSpec.get_tag_matcher e = Throw what ->
        exists what',
          read_expressions UtilSpec.get_filter_expression
            UtilSpec.get_tag_matcher lines f = Throw what')
  /\ (forall c key value,
        c <> "!"%char ->
        all_chars (fun c => negb (Ascii.eqb c "=")) (String c key) = true ->
        UtilSpec.get_tag_matcher (String c key)
        = Ok (matcher_key (String c key))
        /\ UtilSpec.get_tag_matcher (String c key +:+ "=" +:+ value)
           = Ok (matcher_key_value (String c key) value)).
Proof.
  destruct (read_expressions_any_parser UtilSpec.get_filter_expression
              UtilSpec.get_tag_matcher lines f) as (H1 & H2 & H3).
  split; [exact H1|]. split; [|split].
  - intros f' Hf'. destruct (H2 f' Hf') as (matchers & Hm & Hr).
    exists matchers. split; [|exact Hr].
    eapply Forall2_impl; [exact Hm|].
    intros e m (p & [= <-] & Hp). exact Hp.
  - intros line e what Hin He Hp. apply (H3 line e what Hin He).
    unfold parse_and_add_expression, UtilSpec.get_filter_expression.
    cbn [snd]. now rewrite Hp.
  - intros c key value. apply get_tag_matcher_grammar.
Qed.

Lemma rules_file_loading_witness :
  exists f matchers,
    read_expressions UtilSpec.get_filter_expression UtilSpec.get_tag_matcher
      ["waterway=river#rivers"; ""; "# comment";
       "natural" +:+ String carriage_return ""]
      (new_filter false) = Ok f
    /\ m_rules f = map (pair true) matchers
    /\ length matchers = 2%nat.
Proof.
  assert (Hread :
    read_expressions UtilSpec.get_filter_expression UtilSpec.get_tag_matcher
      ["waterway=river#rivers"; ""; "# comment";
       "natural" +:+ String carriage_return ""]
      (new_filter false)
    = Ok (mkTagsFilter [(true, matcher_key_value "waterway" "river");
                        (true, matcher_key "natural")] false))
    by reflexivity.
  destruct (rules_file_loading
              ["waterway=river#rivers"; ""; "# comment";
               "natural" +:+ String carriage_return ""]
              (new_filter false)) as (_ & H & _).
  destruct (H _ Hread) as (matchers & Hm & Hr & _).
  eexists _, matchers. split; [exact Hread|]. split; [exact Hr|].
  apply Forall2_length in Hm. rewrite <- Hm. reflexivity.
Defined.

(** C6 as stated fails: the rule read from a line with a leading
    exclamation mark is an include rule like every other. *)
Lemma negated_line_adds_include_rule :
  exists f,
    read_expressions_file UtilSpec.get_filter_expression
      UtilSpec.get_tag_matcher Examples.negated_rules_files "rules.txt"
      (new_filter false) = Ok f
    /\ map fst (m_rules f) = [true].
Proof. eexists. split; [vm_compute; reflexivity | reflexivity]. Qed.

Lemma malformed_rules_abort_witness :
  let out := main UtilSpec.get_filter_expression UtilSpec.get_tag_matcher
               Examples.no_osm
               ["in.pbf"; "rules.txt"; "ways.csv"; "areas.csv"]
               Examples.bad_rules_files in
  exit_code out = 1
  /\ files out !! "ways.csv" = Some ""
  /\ files out !! "areas.csv" = Some "".
Proof.
  destruct (malformed_rules_abort UtilSpec.get_filter_expression
              UtilSpec.get_tag_matcher Examples.no_osm
              "in.pbf" "rules.txt" "ways.csv" "areas.csv"
              ("waterway" +:+ Examples.line_feed +:+ "=river"
               +:+ Examples.line_feed)
              "=river" "=river" "Can not parse filter expression '=river'"
              Examples.bad_rules_files)
    as (H1 & H2 & H3 & _).
  - discriminate.
  - discriminate.
  - reflexivity.
  - vm_compute. auto.
  - reflexivity.
  - reflexivity.
  - auto.
Defined.

(** C5 as stated fails: the rules file has a line that does not parse,
    neither output file existed before the run, and both exist after
    it. *)
Lemma output_files_left_behind :
  Examples.bad_rules_files !! "ways.csv" = None
  /\ Examples.bad_rules_files !! "areas.csv" = None
  /\ UtilSpec.get_tag_matcher "=river"
     = Throw "Can not parse filter expression '=river'"
  /\ let out := main UtilSpec.get_filter_expression UtilSpec.get_tag_matcher
                  Examples.no_osm
                  ["in.pbf"; "rules.txt"; "ways.csv"; "areas.csv"]
                  Examples.bad_rules_files in
     exit_code out = 1
     /\ files out !! "ways.csv" = Some ""
     /\ files out !! "areas.csv" = Some "".
Proof. vm_compute. repeat split. Qed.

End RulesFileExamples.

(** ** The header of the river-system CSV *)

Section Header.
Import Osmium IStream Rivermap Spec.

(** The header [load] reads is the first line of the file, and the stream
    goes on behind it. *)
Lemma getline_first_line (content : option string) :
  snd (getline (open content) "") = first_line content.
Proof.
  destruct content as [text|]; [|reflexivity].
  destruct text as [|c text]; [reflexivity|].
  unfold getline, open, first_line. cbn -[until_newline].
  destruct (until_newline (String c text)) as [[line rest] found].
  reflexivity.
Qed.

Lemma load_unfold (fuel : nat) (filename : string) (content : option string)
    (id : Z) (m : RiversystemMap) :
  load fuel filename content id m
  = if String.eqb (first_line content) "" then
      thrown ("Can't read from file " +:+ filename) m
    else if negb (String.eqb (first_line content) "id,rsystem") then
      thrown ("Wrong csv header: " +:+ first_line content) m
    else
      match load_loop fuel (fst (getline (open content) "")) id "" m with
      | Some m => loaded m
      | None => out_of_fuel
      end.
Proof.
  unfold load. rewrite <- getline_first_line.
  assert (Heof : eof (open content) = false) by (destruct content; reflexivity).
  rewrite Heof. simpl negb. cbv iota.
  destruct (getline (open content) "") as [ifs header]. reflexivity.
Qed.

(** C7: [load] throws unless the first line of the file is exactly
    id,rsystem.  A first line that is empty or cannot be read and a first
    line with any other content both throw, the table is as it was before,
    and the run ends with exit code 1 and nothing in the layer. *)
Theorem load_requires_header (fuel : nat) (filename : string)
    (content : option string) (id : Z) (m : RiversystemMap) :
  (first_line content = "" ->
   load fuel filename content id m
   = thrown ("Can't read from file " +:+ filename) m)
  /\ (first_line content <> "" -> first_line content <> "id,rsystem" ->
      load fuel filename content id m
      = thrown ("Wrong csv header: " +:+ first_line content) m)
  /\ (first_line content = "id,rsystem" ->
      forall what m', load fuel filename content id m <> thrown what m')
  /\ (first_line content <> "id,rsystem" -> filename <> "" ->
      forall create_linestring ways fs,
        fs !! filename = content ->
        run create_linestring fuel (Some ways) filename fs id = exited 1 []).
Proof.
  rewrite load_unfold.
  split; [|split; [|split]].
  - intros ->. reflexivity.
  - intros H1 H2. apply String.eqb_neq in H1, H2. now rewrite H1, H2.
  - intros ->. simpl. intros what m'.
    destruct (load_loop _ _ _ _ _); discriminate.
  - intros H Hf cl ways fs Hfs. unfold run.
    apply String.eqb_neq in Hf. rewrite Hf. simpl negb. cbv iota.
    rewrite Hfs, load_unfold.
    destruct (String.eqb_spec (first_line content) ""); [reflexivity|].
    apply String.eqb_neq in H. rewrite H. reflexivity.
Qed.

Lemma load_requires_header_witness :
  load 10 "rsystems.csv"
    (Some ("id;rsystem" +:+ Examples.line_feed +:+ "5,Rhine")) 0 empty_map
  = thrown "Wrong csv header: id;rsystem" empty_map.
Proof.
  destruct (load_requires_header 10 "rsystems.csv"
              (Some ("id;rsystem" +:+ Examples.line_feed +:+ "5,Rhine"))
              0 empty_map) as (_ & H & _).
  rewrite H; [reflexivity | discriminate | discriminate].
Defined.

End Header.

(** ** The waterway layer *)

Section WaterwayLayer.
Import Osmium IStream Rivermap Spec.

Variable create_linestring : Way -> linestring_result.




End WaterwayLayer.

Section WaterwayLayerExamples.
Import Osmium IStream Rivermap Spec.



End WaterwayLayerExamples.

(** ** The join table *)

Section JoinTable.
Import Osmium WaterwayIds IStream Rivermap Spec.

Lemma find_node_Some (names : list string) (name : string) (node : nat) :
  find_node names name = Some node -> names !! node = Some name.
Proof.
  revert node. induction names as [|n names IH]; intros node; simpl.
  - discriminate.
  - destruct (String.eqb_spec n name) as [->|Hne].
    + intros [= <-]. reflexivity.
    + destruct (find_node names name) as [i|]; [|discriminate].
      intros [= <-]. simpl. now apply IH.
Qed.

Lemma find_node_None (names : list string) (name : string) :
  find_node names name = None -> ~ In name names.
Proof.
  induction names as [|n names IH]; simpl; [tauto|].
  destruct (String.eqb_spec n name) as [->|Hne]; [discriminate|].
  destruct (find_node names name); [discriminate|].
  intros _ [H|H]; [congruence | now apply IH].
Qed.

(** Interning: the node returned holds the name, the nodes that were there
    stay where they are, and no name is held twice. *)
Lemma names_insert_spec (names : list string) (name : string) :
  NoDup names ->
  let (names', node) := names_insert names name in
  names' !! node = Some name
  /\ (forall i x, names !! i = Some x -> names' !! i = Some x)
  /\ NoDup names'.
Proof.
  intros Hnd. unfold names_insert.
  destruct (find_node names name) as [node|] eqn:Hf.
  - split; [now apply find_node_Some | auto].
  - split; [|split].
    + rewrite lookup_app_r by lia. now rewrite Nat.sub_diag.
    + intros i x Hi. now apply lookup_app_l_Some.
    + apply NoDup_app. split; [exact Hnd|]. split.
      * intros x Hx Hx'. apply list_elem_of_In in Hx.
        apply list_elem_of_singleton in Hx'. subst x.
        now apply find_node_None in Hf.
      * apply NoDup_singleton.
Qed.









End JoinTable.

(** ** Reading the river-system CSV *)

Section Reading.
Import Osmium WaterwayIds IStream Rivermap Spec.

Lemma isdigit_not_space (c : ascii) : isdigit c = true -> isspace c = false.
Proof.
  unfold isdigit, isspace. intros H.
  apply andb_true_iff in H. destruct H as [H1 H2].
  apply Nat.leb_le in H1. apply Nat.leb_le in H2.
  apply orb_false_iff. split.
  - apply Nat.eqb_neq. lia.
  - apply andb_false_iff. right. apply Nat.leb_gt. lia.
Qed.

Lemma isdigit_not_sign (c : ascii) :
  isdigit c = true ->
  Ascii.eqb c "-"%char = false /\ Ascii.eqb c "+"%char = false.
Proof.
  intros H. split.
  - destruct (Ascii.eqb_spec c "-"%char) as [->|]; [discriminate | reflexivity].
  - destruct (Ascii.eqb_spec c "+"%char) as [->|]; [discriminate | reflexivity].
Qed.

(** The characters [pretty] writes are decimal digits. *)
Lemma pretty_N_char_digit (d : N) :
  (d < 10)%N ->
  isdigit (pretty_N_char d) = true
  /\ digit_value (pretty_N_char d) = Z.of_N d.
Proof.
  intros H.
  assert (Hd : d = 0%N \/ d = 1%N \/ d = 2%N \/ d = 3%N \/ d = 4%N
               \/ d = 5%N \/ d = 6%N \/ d = 7%N \/ d = 8%N \/ d = 9%N)
    by lia.
  repeat (destruct Hd as [->|Hd]; [split; reflexivity|]).
  subst d. split; reflexivity.
Qed.

(** [take_digits] reads back the digits [pretty_N_go] writes. *)
Lemma take_digits_pretty_N_go (x : N) :
  forall (s rest : string) (acc : Z) (count : nat),
  exists k : nat,
    ((0 < x)%N -> (0 < k)%nat)
    /\ take_digits (pretty_N_go x s +:+ rest) acc count
       = take_digits (s +:+ rest) (acc * 10 ^ Z.of_nat k + Z.of_N x)
           (count + k).
Proof.
  induction (N.lt_wf_0 x) as [x _ IH]. intros s rest acc count.
  destruct (N.eq_dec x 0%N) as [->|Hx].
  - exists O. split; [lia|]. rewrite pretty_N_go_0.
    f_equal; [lia | lia].
  - assert (Hpos : (0 < x)%N) by lia.
    rewrite pretty_N_go_step by exact Hpos.
    destruct (IH (x `div` 10)%N (N.div_lt x 10 Hpos eq_refl)
                (String (pretty_N_char (x `mod` 10)) s) rest acc count)
      as (k & _ & Hk).
    exists (S k). split; [lia|]. rewrite Hk.
    rewrite string_app_cons.
    destruct (pretty_N_char_digit (x `mod` 10)%N) as [Hd Hv];
      [now apply N.mod_lt|].
    cbn [take_digits]. rewrite Hd, Hv.
    f_equal; [|lia].
    rewrite Nat2Z.inj_succ, Z.pow_succ_r by lia.
    rewrite (N.div_mod x 10) at 3 by lia.
    rewrite N2Z.inj_add, N2Z.inj_mul. simpl Z.of_N. lia.
Qed.

Lemma pretty_N_go_starts_with_digit (x : N) :
  forall s : string,
    (0 < x)%N \/ starts_with_digit s -> starts_with_digit (pretty_N_go x s).
Proof.
  induction (N.lt_wf_0 x) as [x _ IH]. intros s H.
  destruct (N.eq_dec x 0%N) as [->|Hx].
  - rewrite pretty_N_go_0. destruct H as [H|H]; [lia | exact H].
  - assert (Hpos : (0 < x)%N) by lia.
    rewrite pretty_N_go_step by exact Hpos.
    apply IH; [now apply N.div_lt|]. right. simpl.
    apply pretty_N_char_digit. now apply N.mod_lt.
Qed.

(** The decimal text of a natural number: it starts with a digit and
    [take_digits] gives the number back. *)
Lemma take_digits_pretty_N (x : N) (rest : string) :
  ~ starts_with_digit rest ->
  starts_with_digit (pretty x)
  /\ exists k, (0 < k)%nat
               /\ take_digits (pretty x +:+ rest) 0 0 = (Z.of_N x, k, rest).
Proof.
  intros Hrest.
  assert (Hstop : forall acc count,
            take_digits rest acc count = (acc, count, rest)).
  { intros acc count. destruct rest as [|c rest]; [reflexivity|].
    cbn [take_digits]. unfold starts_with_digit in Hrest.
    destruct (isdigit c); [exfalso; now apply Hrest | reflexivity]. }
  unfold pretty, pretty_N. destruct (decide (x = 0%N)) as [->|Hx].
  - split; [reflexivity|]. exists 1%nat. split; [lia|].
    rewrite string_app_cons, string_app_nil_l. cbn [take_digits].
    change (isdigit "0") with true. cbv iota. now rewrite Hstop.
  - split; [apply pretty_N_go_starts_with_digit; left; lia|].
    destruct (take_digits_pretty_N_go x "" rest 0 0) as (k & Hk & Ht).
    exists k. split; [apply Hk; lia|].
    rewrite Ht, string_app_nil_l, Hstop. reflexivity.
Qed.

Lemma skip_space_app (sp : string) (c : ascii) (tl : string) :
  all_chars isspace sp = true -> isspace c = false ->
  skip_space (sp +:+ String c tl) = String c tl.
Proof.
  intros Hsp Hc. induction sp as [|x sp IH].
  - rewrite string_app_nil_l. cbn [skip_space]. now rewrite Hc.
  - cbn [all_chars] in Hsp. apply andb_true_iff in Hsp.
    destruct Hsp as [Hx Hsp]. rewrite string_app_cons.
    cbn [skip_space]. rewrite Hx. now apply IH.
Qed.

(** The sentry on a good stream with input left behind the white space. *)
Lemma sentry_ready (sp : string) (c : ascii) (tl : string) :
  all_chars isspace sp = true -> isspace c = false ->
  sentry (mkIstream (sp +:+ String c tl) false false false)
  = (mkIstream (String c tl) false false false, true).
Proof.
  intros Hsp Hc. unfold sentry. cbn [good eofbit failbit badbit rdbuf].
  cbn [orb negb]. now rewrite skip_space_app.
Qed.

(** Reading a number that is followed by something else than a digit. *)
Lemma extract_long_digits (sp : string) (negative : bool) (x : N)
    (rest : string) (v : Z) :
  all_chars isspace sp = true ->
  ~ starts_with_digit rest -> rest <> "" ->
  let value := if negative then - Z.of_N x else Z.of_N x in
  LONG_MIN <= value <= LONG_MAX ->
  extract_long
    (mkIstream (sp +:+ (if negative then "-" else "") +:+ pretty x +:+ rest)
       false false false) v
  = (mkIstream rest false false false, value).
Proof.
  intros Hsp Hrest Hne value Hrange.
  destruct (take_digits_pretty_N x rest Hrest) as (Hstart & k & Hk & Htake).
  assert (Hend : String.eqb rest "" = false) by now apply String.eqb_neq.
  assert (Hcount : (k =? 0)%nat = false) by (apply Nat.eqb_neq; lia).
  assert (Hlow : (value <? LONG_MIN) = false) by (apply Z.ltb_ge; lia).
  assert (Hhigh : (LONG_MAX <? value) = false) by (apply Z.ltb_ge; lia).
  unfold extract_long. destruct negative.
  - rewrite string_app_cons, string_app_nil_l.
    rewrite sentry_ready by (exact Hsp || reflexivity).
    cbn [rdbuf failbit badbit eofbit].
    change (Ascii.eqb "-" "-") with true. cbv iota. rewrite Htake. cbv iota.
    fold value. now rewrite Hend, Hcount, Hlow, Hhigh.
  - rewrite string_app_nil_l.
    destruct (pretty x) as [|c tl] eqn:Hp; [destruct Hstart|].
    cbn [starts_with_digit] in Hstart. rewrite string_app_cons.
    rewrite sentry_ready by (exact Hsp || now apply isdigit_not_space).
    cbn [rdbuf failbit badbit eofbit].
    destruct (isdigit_not_sign c Hstart) as [-> ->]. cbv iota.
    rewrite string_app_cons in Htake. rewrite Htake. cbv iota.
    fold value. now rewrite Hend, Hcount, Hlow, Hhigh.
Qed.

(** [is >> id] on the decimal text of an id. *)
Lemma extract_long_pretty (sp : string) (z : Z) (rest : string) (v : Z) :
  all_chars isspace sp = true ->
  ~ starts_with_digit rest -> rest <> "" ->
  LONG_MIN <= z <= LONG_MAX ->
  extract_long (mkIstream (sp +:+ pretty z +:+ rest) false false false) v
  = (mkIstream rest false false false, z).
Proof.
  intros Hsp Hrest Hne Hrange. destruct z as [|p|p].
  - apply (extract_long_digits sp false 0%N rest v); assumption.
  - apply (extract_long_digits sp false (N.pos p) rest v); assumption.
  - change (pretty (Z.neg p)) with ("-" +:+ pretty (N.pos p)).
    rewrite string_app_assoc.
    apply (extract_long_digits sp true (N.pos p) rest v); assumption.
Qed.








Lemma insert_into_empty (id : Z) (name : string) :
  Rivermap.insert id name empty_map
  = mkRiversystemMap [name] (<[id := c_str_of_name 0]> ∅).
Proof.
  unfold Rivermap.insert, empty_map. cbn [m_names m_id2Name].
  now rewrite lookup_empty.
Qed.

Lemma load_after_header (fuel : nat) (filename text : string)
    (ifs : istream) (id : Z) (m : RiversystemMap) :
  getline (open (Some text)) "" = (ifs, "id,rsystem") ->
  load fuel filename (Some text) id m
  = match load_loop fuel ifs id "" m with
    | Some m => loaded m
    | None => out_of_fuel
    end.
Proof.
  intros H. unfold load. change (eof (open (Some text))) with false.
  cbn [negb]. now rewrite H.
Qed.




End Reading.

(** ** A line that is not well-formed *)

Section Malformed.
Import Osmium WaterwayIds IStream Rivermap Spec.

(** Once the stream has failed before the end of the input, no operation of
    the loop reads anything or sets [eofbit]: the loop does not end. *)
Lemma load_loop_stuck (fuel : nat) :
  forall (ifs : istream) (id : Z) (name : string) (m : RiversystemMap),
    eof ifs = false -> good ifs = false ->
    load_loop fuel ifs id name m = None.
Proof.
  induction fuel as [|fuel IH]; intros ifs id name m Heof Hgood;
    [reflexivity|].
  cbn [load_loop]. rewrite Heof.
  unfold extract_long, comma, extract_char, extract_string, sentry.
  rewrite Hgood.
  assert (Hgood' : good (set_fail ifs) = false).
  { unfold good, set_fail. cbn [eofbit failbit badbit].
    now rewrite orb_true_r. }
  rewrite Hgood'.
  assert (Hgood'' : good (set_fail (set_fail ifs)) = false).
  { unfold good, set_fail. cbn [eofbit failbit badbit].
    now rewrite orb_true_r. }
  rewrite Hgood''.
  apply IH.
  - exact Heof.
  - unfold good, set_fail. cbn [eofbit failbit badbit].
    now rewrite orb_true_r.
Qed.

(** A name of two words: the second word is taken for the next id, the
    stream fails, and [load] never returns. *)
Lemma load_two_word_name_never_returns (fuel : nat) :
  (2 <= fuel)%nat ->
  load fuel "rsystems.csv"
    (Some ("id,rsystem" +:+ endl +:+ "5,Upper Rhine")) 0 empty_map
  = out_of_fuel.
Proof.
  intros Hfuel.
  do 2 (destruct fuel as [|fuel]; [lia|]).
  rewrite (load_after_header _ _ _
             (mkIstream "5,Upper Rhine" false false false));
    [|reflexivity].
  change (load_loop (S (S fuel))
            (mkIstream "5,Upper Rhine" false false false) 0 "" empty_map)
    with (load_loop fuel (mkIstream "Rhine" false true false) 0 "Upper"
            (Rivermap.insert 0 "Upper"
               (Rivermap.insert 5 "Upper" empty_map))).
  now rewrite load_loop_stuck.
Qed.

End Malformed.

(** * Further properties *)

(** ** The loop over the lines of the rules file *)

Section RulesFileLoop.
Import Osmium WaterwayIds Spec Invariants.

Variable get_filter_expression : string -> result (osm_entity_bits * string).
Variable get_tag_matcher : string -> result TagMatcher.

Local Abbreviation read :=
  (read_expressions get_filter_expression get_tag_matcher).

(** X1: Loading composes: the lines of a file are loaded one part after the
    other, and a failure in the first part is the failure of the whole. *)
Theorem read_expressions_app (a b : list string) (f : TagsFilter) :
  read (a ++ b) f
  = match read a f with
    | Ok f' => read b f'
    | Throw what => Throw what
    end.
Proof.
  revert f. induction a as [|line a IH]; intros f; [reflexivity|].
  cbn [app read_expressions].
  destruct (expression_of_line line) as [e|]; [|apply IH].
  destruct (parse_and_add_expression get_filter_expression get_tag_matcher
              e f); [apply IH | reflexivity].
Qed.

(** X2: Lines that are empty or hold a comment only can be taken out of the
    file without any effect on the result, be it a filter or a failure. *)
Theorem read_expressions_without_blank_lines (lines : list string)
    (f : TagsFilter) :
  read lines f
  = read (List.filter
            (fun line => negb (String.eqb (erase_from_hash line) ""))
            lines) f.
Proof.
  revert f. induction lines as [|line lines IH]; intros f; [reflexivity|].
  cbn [List.filter read_expressions].
  unfold expression_of_line at 1.
  destruct (String.eqb (erase_from_hash line) "") eqn:Hblank.
  - cbn [negb]. apply IH.
  - cbn [negb read_expressions]. unfold expression_of_line. rewrite Hblank.
    destruct (back (erase_from_hash line)) as [c|];
      [destruct (Ascii.eqb c carriage_return)|];
      (destruct (parse_and_add_expression _ _ _ f);
         [apply IH | reflexivity]).
Qed.

(** X3: The empty expression reaches the parser for exactly the lines whose
    text before the first hash sign is a lone carriage return; such a line
    is not skipped, and the load fails or the filter gets one more rule. *)
Theorem carriage_return_line_not_skipped (line : string) (f : TagsFilter) :
  (expression_of_line line = Some ""
   <-> erase_from_hash line = String carriage_return "")
  /\ (erase_from_hash line = String carriage_return "" ->
      (forall what, read [line] f = Throw what ->
         get_filter_expression "" = Throw what
         \/ exists p, get_filter_expression "" = Ok p
                      /\ get_tag_matcher (snd p) = Throw what)
      /\ (forall f', read [line] f = Ok f' ->
            exists m, m_rules f' = (m_rules f ++ [(true, m)])%list)).
Proof.
  assert (Hiff : expression_of_line line = Some ""
                 <-> erase_from_hash line = String carriage_return "").
  { split.
    - intros He. pose proof (expression_of_line_cases line) as Hc.
      rewrite He in Hc. destruct Hc as [Hne [H|[H _]]];
        [exact H | congruence].
    - intros Hline. unfold expression_of_line. now rewrite Hline. }
  split; [exact Hiff|]. intros Hline. apply Hiff in Hline.
  cbn [read_expressions]. rewrite Hline.
  unfold parse_and_add_expression.
  destruct (get_filter_expression "") as [p|what'].
  - destruct (get_tag_matcher (snd p)) as [m|what'] eqn:Hm.
    + split; [intros what H; discriminate H|].
      intros f' [= <-]. exists m. reflexivity.
    + split; [|intros f' H; discriminate H].
      intros what [= ->]. right. eauto.
  - split; [|intros f' H; discriminate H]. intros what [= ->]. auto.
Qed.

Lemma drop_back_all_chars (p : ascii -> bool) (line : string) :
  all_chars p line = true -> all_chars p (drop_back line) = true.
Proof.
  induction line as [|c line IH]; [reflexivity|].
  destruct line as [|d line]; [reflexivity|].
  intros H. change (all_chars p (String c (drop_back (String d line)))
                    = true).
  cbn [all_chars] in H |- *. apply andb_true_iff in H.
  destruct H as [Hc H]. rewrite Hc. now apply IH.
Qed.

(** X4: No expression that reaches the parser holds a hash sign: a key or a
    value with a hash sign in it cannot be written in a rules file. *)
Theorem expression_has_no_hash (line e : string) :
  expression_of_line line = Some e ->
  all_chars (fun c => negb (Ascii.eqb c "#")) e = true.
Proof.
  destruct (erase_from_hash_prefix line) as (rest & _ & Hhash & _).
  unfold expression_of_line.
  destruct (String.eqb (erase_from_hash line) ""); [discriminate|].
  destruct (back (erase_from_hash line)) as [c|];
    [destruct (Ascii.eqb c carriage_return)|];
    intros [= <-]; [now apply drop_back_all_chars | exact Hhash..].
Qed.

End RulesFileLoop.

Section RulesFileLoopExamples.
Import Osmium WaterwayIds Spec Invariants.

Lemma carriage_return_line_not_skipped_witness :
  expression_of_line (String carriage_return "# blank") = Some ""
  /\ read_expressions UtilSpec.get_filter_expression UtilSpec.get_tag_matcher
       [String carriage_return "# blank"] (new_filter false)
     = Throw "Can not parse filter expression ''".
Proof.
  destruct (carriage_return_line_not_skipped
              UtilSpec.get_filter_expression UtilSpec.get_tag_matcher
              (String carriage_return "# blank") (new_filter false))
    as (He & _).
  split; [apply He | ]; reflexivity.
Defined.

Lemma expression_has_no_hash_witness :
  expression_of_line "name=Route #7" = Some "name=Route "
  /\ all_chars (fun c => negb (Ascii.eqb c "#")) "name=Route " = true.
Proof.
  split; [reflexivity|].
  apply (expression_has_no_hash "name=Route #7"). reflexivity.
Defined.

(** [getlines_from] on a line that ends with a line feed. *)
Lemma getlines_from_line (line acc rest : string) :
  no_line_feed line ->
  getlines_from acc (line +:+ endl +:+ rest)
  = (acc +:+ line) :: getlines_from "" rest.
Proof.
  unfold no_line_feed. revert acc.
  induction line as [|c line IH]; intros acc Hline.
  - rewrite string_app_nil_l, string_app_nil_r. reflexivity.
  - cbn [all_chars] in Hline. apply andb_true_iff in Hline.
    destruct Hline as [Hc Hline]. apply negb_true_iff in Hc.
    rewrite string_app_cons. cbn [getlines_from]. rewrite Hc.
    rewrite IH by exact Hline. now rewrite string_app_assoc.
Qed.

Lemma getlines_from_last (line acc : string) :
  no_line_feed line ->
  getlines_from acc line
  = if String.eqb (acc +:+ line) "" then [] else [acc +:+ line].
Proof.
  unfold no_line_feed. revert acc.
  induction line as [|c line IH]; intros acc Hline.
  - rewrite string_app_nil_r. reflexivity.
  - cbn [all_chars] in Hline. apply andb_true_iff in Hline.
    destruct Hline as [Hc Hline]. apply negb_true_iff in Hc.
    cbn [getlines_from]. rewrite Hc.
    rewrite IH by exact Hline. now rewrite string_app_assoc.
Qed.

(** X5: The loop over [std::getline] sees every line of the file once and in
    order, the text behind the last line feed included unless it is
    empty. *)
Theorem getlines_unlines (lines : list string) (last : string) :
  Forall no_line_feed lines -> no_line_feed last ->
  getlines (unlines lines +:+ last)
  = (lines ++ if String.eqb last "" then [] else [last])%list.
Proof.
  intros Hlines Hlast. unfold getlines, unlines.
  induction Hlines as [|line lines Hline _ IH].
  - cbn [map text_of_lines app]. rewrite string_app_nil_l.
    now rewrite getlines_from_last.
  - cbn [map text_of_lines app]. rewrite !string_app_assoc.
    rewrite getlines_from_line by exact Hline.
    rewrite string_app_nil_l. now rewrite IH.
Qed.

Lemma getlines_unlines_witness :
  getlines ("waterway=river" +:+ endl +:+ "" +:+ endl +:+ "natural")
  = ["waterway=river"; ""; "natural"].
Proof.
  apply (getlines_unlines ["waterway=river"; ""] "natural").
  - repeat constructor.
  - reflexivity.
Defined.

End RulesFileLoopExamples.

(** ** Both sinks after the second pass *)

Section BothSinks.
Import Osmium WaterwayIds Spec Invariants.

Lemma area_sink_lines_cons (f : TagsFilter) (item : Item)
    (items : list Item) :
  area_sink_lines f (item :: items)
  = (area_sink_lines f [item] ++ area_sink_lines f items)%list.
Proof. unfold area_sink_lines. simpl. now rewrite app_nil_r. Qed.

Lemma areastream_write_way (text : string) (s : Sinks) :
  areastream (write to_waystream text s) = areastream s.
Proof. reflexivity. Qed.

(** What one way adds to the areas sink. *)
Lemma way_areastream (f : TagsFilter) (w : Way) (s : Sinks) :
  areastream (way f w s)
  = areastream s +:+ text_of_lines (area_sink_lines f [ItemWay w]).
Proof.
  unfold way, area_sink_lines, classifyAreaKey, way_line.
  cbn [flat_map List.find]. rewrite app_nil_r.
  destruct (match_any_of (way_tags w) f);
    [|cbn; now rewrite string_app_nil_r].
  destruct (has_key (way_tags w) "waterway") eqn:Hw.
  { cbn. rewrite string_app_nil_r.
    destruct (proj1 (has_key_value _ _) Hw) as [v Hv].
    now rewrite (output_waterway_line _ _ _ _ _ Hv). }
  cbn [andb negb].
  destruct (has_key (way_tags w) "natural") eqn:Hn.
  { destruct (proj1 (has_key_value _ _) Hn) as [v Hv].
    rewrite (output_waterway_line _ _ _ _ _ Hv), Hv. cbn.
    now rewrite string_app_nil_r. }
  destruct (has_key (way_tags w) "landuse") eqn:Hl.
  { destruct (proj1 (has_key_value _ _) Hl) as [v Hv].
    rewrite (output_waterway_line _ _ _ _ _ Hv), Hv. cbn.
    now rewrite string_app_nil_r. }
  cbn. now rewrite string_app_nil_r.
Qed.

(** What one area adds to the areas sink. *)
Lemma area_areastream (f : TagsFilter) (a : Area) (s : Sinks) :
  areastream (area f a s)
  = areastream s +:+ text_of_lines (area_sink_lines f [ItemArea a]).
Proof.
  unfold area, area_sink_lines, classifyAreaKey, area_line.
  cbn [flat_map List.find]. rewrite app_nil_r.
  destruct (match_any_of (area_tags a) f);
    [|cbn; now rewrite string_app_nil_r].
  destruct (has_key (area_tags a) "natural") eqn:Hn.
  { destruct (proj1 (has_key_value _ _) Hn) as [v Hv].
    rewrite (output_area_line _ _ _ _ _ Hv), Hv. cbn.
    now rewrite string_app_nil_r. }
  destruct (has_key (area_tags a) "landuse") eqn:Hl.
  { destruct (proj1 (has_key_value _ _) Hl) as [v Hv].
    rewrite (output_area_line _ _ _ _ _ Hv), Hv. cbn.
    now rewrite string_app_nil_r. }
  cbn. now rewrite string_app_nil_r.
Qed.

Lemma apply_areastream (f : TagsFilter) (items : list Item) (s : Sinks) :
  areastream (apply f items s)
  = areastream s +:+ text_of_lines (area_sink_lines f items).
Proof.
  revert s. induction items as [|[w|a] items IH]; intros s.
  - simpl. now rewrite string_app_nil_r.
  - change (apply f (ItemWay w :: items) s)
      with (apply f items (way f w s)).
    rewrite (area_sink_lines_cons f (ItemWay w) items).
    rewrite IH, way_areastream, text_of_lines_app.
    now rewrite string_app_assoc.
  - change (apply f (ItemArea a :: items) s)
      with (apply f items (area f a s)).
    rewrite (area_sink_lines_cons f (ItemArea a) items).
    rewrite IH, area_areastream, text_of_lines_app.
    now rewrite string_app_assoc.
Qed.

(** X6: The whole second pass: the ways sink gets the lines of the accepted
    ways with a waterway tag, and the areas sink gets the lines of the
    other accepted ways that have a natural or landuse tag and of the
    accepted areas that have one, each sink in stream order; nothing else
    is written, and what was in the sinks stays in front. *)
Theorem apply_writes_both_sinks (f : TagsFilter) (items : list Item)
    (s : Sinks) :
  apply f items s
  = mkSinks (waystream s +:+ text_of_lines (way_sink_lines f items))
      (areastream s +:+ text_of_lines (area_sink_lines f items)).
Proof.
  rewrite <- apply_waystream, <- apply_areastream.
  now destruct (apply f items s).
Qed.

(** A tag the compiled-in filter accepts has one of the three classifying
    keys. *)
Lemma builtin_filter_tag_key (k v : string) :
  filter_tag builtin_filter (k, v) = true ->
  k = "natural" \/ k = "landuse" \/ k = "waterway".
Proof.
  destruct (String.eqb_spec "natural" k) as [<-|Hn]; [auto|].
  destruct (String.eqb_spec "landuse" k) as [<-|Hl]; [auto|].
  destruct (String.eqb_spec "waterway" k) as [<-|Hw]; [auto|].
  assert (Hno : forall key value,
            key <> k -> tag_match (matcher_key_value key value) (k, v) = false).
  { intros key value Hkey. apply String.eqb_neq in Hkey.
    unfold tag_match, matcher_key_value. cbn. now rewrite Hkey. }
  unfold filter_tag, builtin_filter, add_rule, new_filter.
  cbn [m_rules m_default_result app rules_result].
  rewrite !Hno by assumption. discriminate.
Qed.

Lemma has_key_of_tag (tags : TagList) (k v : string) :
  In (k, v) tags -> has_key tags k = true.
Proof.
  unfold has_key. induction tags as [|[k' v'] tags IH];
    [intros H; destruct H|].
  intros [Heq|Hin]; cbn [get_value_by_key].
  - injection Heq as -> ->. now rewrite String.eqb_refl.
  - destruct (String.eqb k k'); [reflexivity | now apply IH].
Qed.

(** X7: With the compiled-in rules no accepted way is dropped: it has one of
    the three classifying keys, and exactly one line goes to the sink of
    the first of them. *)
Theorem builtin_filter_never_drops (w : Way) (s : Sinks) :
  match_any_of (way_tags w) builtin_filter = true ->
  exists key v,
    classifyKey (way_tags w) = Some key
    /\ get_value_by_key (way_tags w) key = Some v
    /\ way builtin_filter w s
       = write (sink_of_key key)
           (csv_line (way_id w) v (map ref (way_nodes w))) s.
Proof.
  intros Hacc. unfold way. rewrite Hacc.
  unfold match_any_of in Hacc. apply existsb_exists in Hacc.
  destruct Hacc as ([k v] & Hin & Hf).
  apply has_key_of_tag in Hin. apply builtin_filter_tag_key in Hf.
  unfold classifyKey, classifying_keys. cbn [List.find].
  destruct (has_key (way_tags w) "waterway") eqn:Hw.
  { destruct (proj1 (has_key_value _ _) Hw) as [x Hx].
    exists "waterway", x. repeat split; [exact Hx|].
    now apply output_waterway_line. }
  destruct (has_key (way_tags w) "natural") eqn:Hn.
  { destruct (proj1 (has_key_value _ _) Hn) as [x Hx].
    exists "natural", x. repeat split; [exact Hx|].
    now apply output_waterway_line. }
  destruct (has_key (way_tags w) "landuse") eqn:Hl.
  { destruct (proj1 (has_key_value _ _) Hl) as [x Hx].
    exists "landuse", x. repeat split; [exact Hx|].
    now apply output_waterway_line. }
  destruct Hf as [ -> | [ -> | -> ] ]; congruence.
Qed.

Lemma builtin_filter_never_drops_witness :
  way builtin_filter Examples.pond (mkSinks "" "")
  = mkSinks "" ("19,water,6,7,8,6" +:+ Examples.line_feed).
Proof.
  destruct (builtin_filter_never_drops Examples.pond (mkSinks "" "")
              eq_refl) as (key & v & Hk & Hv & Hway).
  vm_compute in Hk. injection Hk as <-.
  vm_compute in Hv. injection Hv as <-.
  rewrite Hway. reflexivity.
Defined.

End BothSinks.

(** ** The runs of osmium_waterway_ids *)

Section Runs.
Import Osmium WaterwayIds Spec Invariants.

Lemma close_empty_sinks (wayfile areafile : string)
    (fs : gmap string string) :
  close_sinks wayfile areafile (mkSinks "" "")
    (open_sinks wayfile areafile fs)
  = open_sinks wayfile areafile fs.
Proof.
  unfold close_sinks, open_sinks. cbn [waystream areastream].
  apply map_eq. intros path. rewrite !lookup_insert.
  repeat case_decide; congruence.
Qed.

(** The files after the sinks are closed. *)
Lemma close_sinks_lookup (wayfile areafile : string) (s : Sinks)
    (fs : gmap string string) :
  wayfile <> areafile ->
  let files := close_sinks wayfile areafile s
                 (open_sinks wayfile areafile fs) in
  files !! wayfile = Some (waystream s)
  /\ files !! areafile = Some (areastream s)
  /\ (forall path, path <> wayfile -> path <> areafile ->
        files !! path = fs !! path).
Proof.
  intros Hne. unfold close_sinks, open_sinks. cbn zeta.
  split; [|split].
  - rewrite lookup_insert_ne by congruence. apply lookup_insert_eq.
  - apply lookup_insert_eq.
  - intros path H1 H2. now rewrite !lookup_insert_ne by congruence.
Qed.

(** A filter without rules accepts nothing. *)
Lemma empty_filter_rejects (tags : TagList) :
  match_any_of tags (new_filter false) = false.
Proof. induction tags as [|t tags IH]; [reflexivity | exact IH]. Qed.

Lemma apply_empty_filter (items : list Item) (s : Sinks) :
  apply (new_filter false) items s = s.
Proof.
  revert s. induction items as [|[w|a] items IH]; intros s;
    [reflexivity| |]; cbn [apply].
  - unfold way. rewrite empty_filter_rejects. apply IH.
  - unfold area. rewrite empty_filter_rejects. apply IH.
Qed.

Variable get_filter_expression : string -> result (osm_entity_bits * string).
Variable get_tag_matcher : string -> result TagMatcher.

Local Abbreviation main_of :=
  (main get_filter_expression get_tag_matcher).
Local Abbreviation read_file :=
  (read_expressions_file get_filter_expression get_tag_matcher).

(** X8: Runs of the second revision that fail before the second pass.
    With a wrong number of arguments the exit code is 1 and no file is
    touched.  With four arguments, when the rules file cannot be opened,
    when a line of it does not parse, or when the first pass cannot read
    the input, the exit code is 1 and the files are as the constructor of
    the handler left them: the two output files created or emptied, every
    other file as it was. *)
Theorem main_fails_before_second_pass (osm : OsmReader)
    (osmfile filterfile wayfile areafile : string)
    (fs : gmap string string) :
  (forall args, length args <> 4%nat ->
     main_of osm args fs = mkOutcome 1 fs)
  /\ ((exists what,
         read_file (open_sinks wayfile areafile fs) filterfile
           (new_filter false) = Throw what)
      \/ osm osmfile = None ->
      main_of osm [osmfile; filterfile; wayfile; areafile] fs
      = mkOutcome 1 (open_sinks wayfile areafile fs))
  /\ (open_sinks wayfile areafile fs !! filterfile = None ->
      exists what,
        read_file (open_sinks wayfile areafile fs) filterfile
          (new_filter false) = Throw what)
  /\ open_sinks wayfile areafile fs !! wayfile = Some ""
  /\ open_sinks wayfile areafile fs !! areafile = Some ""
  /\ (forall path, path <> wayfile -> path <> areafile ->
        open_sinks wayfile areafile fs !! path = fs !! path).
Proof.
  split; [|split; [|split; [|split; [|split]]]].
  - intros args Hlen.
    do 5 (destruct args as [|? args]; try reflexivity).
    simpl in Hlen. lia.
  - unfold main. intros [[what Hread]|Hosm].
    + rewrite Hread. now rewrite close_empty_sinks.
    + destruct (read_expressions_file _ _ _ filterfile (new_filter false));
        [rewrite Hosm|]; now rewrite close_empty_sinks.
  - intros Hnone. unfold read_expressions_file. rewrite Hnone. eauto.
  - unfold open_sinks. rewrite lookup_insert. case_decide; [reflexivity|].
    apply lookup_insert_eq.
  - unfold open_sinks. apply lookup_insert_eq.
  - intros path H1 H2. unfold open_sinks.
    now rewrite !lookup_insert_ne by congruence.
Qed.

(** X9: A run of the second revision that succeeds: the way file holds the
    lines of the accepted ways with a waterway tag and the area file the
    lines of the other accepted ways and of the accepted areas, under the
    filter read from the rules file; no other file is touched. *)
Theorem main_writes_both_files (osm : OsmReader)
    (osmfile filterfile wayfile areafile text : string)
    (fs : gmap string string) (f : TagsFilter)
    (items : TagsFilter -> list Item) :
  filterfile <> wayfile -> filterfile <> areafile -> wayfile <> areafile ->
  fs !! filterfile = Some text ->
  read_expressions get_filter_expression get_tag_matcher (getlines text)
    (new_filter false) = Ok f ->
  osm osmfile = Some items ->
  let out := main_of osm [osmfile; filterfile; wayfile; areafile] fs in
  exit_code out = 0
  /\ files out !! wayfile
     = Some (text_of_lines (way_sink_lines f (items f)))
  /\ files out !! areafile
     = Some (text_of_lines (area_sink_lines f (items f)))
  /\ (forall path, path <> wayfile -> path <> areafile ->
        files out !! path = fs !! path).
Proof.
  intros Hw Ha Hwa Hfs Hread Hosm. cbv zeta. unfold main.
  assert (Hopen : open_sinks wayfile areafile fs !! filterfile = Some text).
  { unfold open_sinks. now rewrite !lookup_insert_ne by congruence. }
  unfold read_expressions_file. rewrite Hopen, Hread, Hosm.
  cbn [exit_code files]. split; [reflexivity|].
  destruct (close_sinks_lookup wayfile areafile
              (apply f (items f) (mkSinks "" "")) fs Hwa)
    as (H1 & H2 & H3).
  rewrite H1, H2, apply_waystream, apply_areastream.
  cbn [waystream areastream]. rewrite !string_app_nil_l. auto.
Qed.

(** X10: When the rules file is also named as one of the output files, it is
    emptied before it is read: the filter has no rule, nothing is
    accepted, and the run succeeds with two empty output files. *)
Theorem main_rules_file_named_as_output (osm : OsmReader)
    (osmfile filterfile wayfile areafile : string)
    (fs : gmap string string) (items : TagsFilter -> list Item) :
  filterfile = wayfile \/ filterfile = areafile ->
  osm osmfile = Some items ->
  main_of osm [osmfile; filterfile; wayfile; areafile] fs
  = mkOutcome 0 (open_sinks wayfile areafile fs).
Proof.
  intros Hsame Hosm. unfold main, read_expressions_file.
  assert (Hempty : open_sinks wayfile areafile fs !! filterfile = Some "").
  { unfold open_sinks. rewrite !lookup_insert.
    repeat case_decide; try reflexivity. destruct Hsame; congruence. }
  rewrite Hempty. cbn [getlines getlines_from String.eqb read_expressions].
  rewrite Hosm, apply_empty_filter. now rewrite close_empty_sinks.
Qed.

End Runs.

Section RunsExamples.
Import Osmium WaterwayIds Spec Invariants.

Lemma main_writes_both_files_witness :
  let out := main UtilSpec.get_filter_expression UtilSpec.get_tag_matcher
               one_river ["in.pbf"; "rules.txt"; "ways.csv"; "areas.csv"]
               rules_files in
  exit_code out = 0
  /\ files out !! "ways.csv"
     = Some ("17,river,1,2,3" +:+ Examples.line_feed)
  /\ files out !! "areas.csv"
     = Some ("19,water,6,7,8,6" +:+ Examples.line_feed
             +:+ "6,water,1,2,3,1" +:+ Examples.line_feed).
Proof.
  pose proof (main_writes_both_files UtilSpec.get_filter_expression
              UtilSpec.get_tag_matcher one_river
              "in.pbf" "rules.txt" "ways.csv" "areas.csv"
              ("waterway" +:+ Examples.line_feed
               +:+ "natural=water" +:+ Examples.line_feed)
              rules_files
              (mkTagsFilter [(true, matcher_key "waterway");
                             (true, matcher_key_value "natural" "water")]
                 false)
              (fun _ => [ItemWay Examples.river; ItemWay Examples.pond;
                         ItemArea Examples.lake; ItemWay Examples.road])
              ltac:(discriminate) ltac:(discriminate) ltac:(discriminate)
              eq_refl eq_refl eq_refl)
    as (H0 & H1 & H2 & _).
  cbv zeta. split; [exact H0|].
  split; [now rewrite H1 | now rewrite H2].
Defined.

Lemma main_rules_file_named_as_output_witness :
  main UtilSpec.get_filter_expression UtilSpec.get_tag_matcher
    one_river ["in.pbf"; "rules.txt"; "rules.txt"; "areas.csv"] rules_files
  = mkOutcome 0 (<["areas.csv" := ""]> (<["rules.txt" := ""]> rules_files)).
Proof.
  rewrite (main_rules_file_named_as_output UtilSpec.get_filter_expression
             UtilSpec.get_tag_matcher one_river
             "in.pbf" "rules.txt" "rules.txt" "areas.csv" rules_files
             (fun _ => [ItemWay Examples.river; ItemWay Examples.pond;
                        ItemArea Examples.lake; ItemWay Examples.road]));
    [reflexivity|left; reflexivity|reflexivity].
Defined.

(** X11: The first revision creates the output files only after the first
    pass.  When the first pass cannot read the input, the exit code is 1
    and no file is created or changed.  When both passes deliver their
    items and the two output paths differ, the exit code is 0, the two
    files hold the lines of the pass under the compiled-in filter, and no
    other file is changed. *)
Theorem main_builtin_outcome (osm : OsmReader)
    (osmfile wayfile areafile : string) (fs : gmap string string) :
  (osm osmfile = None ->
   main_builtin osm [osmfile; wayfile; areafile] fs = mkOutcome 1 fs)
  /\ (forall items,
        osm osmfile = Some items -> wayfile <> areafile ->
        let out := main_builtin osm [osmfile; wayfile; areafile] fs in
        exit_code out = 0
        /\ files out !! wayfile
           = Some (text_of_lines
                     (way_sink_lines builtin_filter (items builtin_filter)))
        /\ files out !! areafile
           = Some (text_of_lines
                     (area_sink_lines builtin_filter
                        (items builtin_filter)))
        /\ (forall path, path <> wayfile -> path <> areafile ->
              files out !! path = fs !! path)).
Proof.
  unfold main_builtin. split.
  - intros ->. reflexivity.
  - intros items -> Hwa. cbv zeta. cbn [exit_code files].
    split; [reflexivity|].
    destruct (close_sinks_lookup wayfile areafile
                (apply builtin_filter (items builtin_filter)
                   (mkSinks "" "")) fs Hwa) as (H1 & H2 & H3).
    rewrite H1, H2, apply_waystream, apply_areastream.
    cbn [waystream areastream]. rewrite !string_app_nil_l. auto.
Qed.

Lemma main_builtin_outcome_witness :
  main_builtin Examples.no_osm ["in.pbf"; "ways.csv"; "areas.csv"] ∅
  = mkOutcome 1 ∅
  /\ let out := main_builtin one_river ["in.pbf"; "ways.csv"; "areas.csv"]
                  ∅ in
     exit_code out = 0
     /\ files out !! "ways.csv"
        = Some ("17,river,1,2,3" +:+ Examples.line_feed).
Proof.
  split.
  - apply (main_builtin_outcome Examples.no_osm "in.pbf" "ways.csv"
             "areas.csv" ∅). reflexivity.
  - destruct (main_builtin_outcome one_river "in.pbf" "ways.csv"
                "areas.csv" ∅) as [_ Hsome].
    destruct (Hsome (fun _ => [ItemWay Examples.river; ItemWay Examples.pond;
                               ItemArea Examples.lake; ItemWay Examples.road])
                eq_refl ltac:(discriminate)) as (H0 & H1 & _).
    cbv zeta. split; [exact H0|]. now rewrite H1.
Defined.

End RunsExamples.

Section RunsFailures.
Import Osmium WaterwayIds Spec Invariants.

Lemma main_fails_before_second_pass_witness :
  main UtilSpec.get_filter_expression UtilSpec.get_tag_matcher
    one_river ["in.pbf"; "none.txt"; "ways.csv"; "areas.csv"] rules_files
  = mkOutcome 1 (<["areas.csv" := ""]> (<["ways.csv" := ""]> rules_files)).
Proof.
  destruct (main_fails_before_second_pass UtilSpec.get_filter_expression
              UtilSpec.get_tag_matcher one_river
              "in.pbf" "none.txt" "ways.csv" "areas.csv" rules_files)
    as (_ & Hfail & Hmissing & _).
  apply Hfail. left. apply Hmissing. reflexivity.
Defined.

End RunsFailures.

(** ** The separator of the river-system CSV *)

Section Comma.
Import Osmium WaterwayIds IStream Rivermap Spec Invariants.

(** A text is white space followed by what [skip_space] leaves. *)
Lemma skip_space_split (text : string) :
  exists sp,
    text = sp +:+ skip_space text /\ all_chars isspace sp = true.
Proof.
  induction text as [|c text (sp & IH1 & IH2)].
  - exists "". split; reflexivity.
  - cbn [skip_space]. destruct (isspace c) eqn:Hc.
    + exists (String c sp). rewrite string_app_cons, <- IH1.
      split; [reflexivity|]. cbn [all_chars]. now rewrite Hc, IH2.
    + exists "". split; reflexivity.
Qed.

Lemma good_bits (ifs : istream) :
  good ifs = true ->
  ifs = mkIstream (rdbuf ifs) false false false.
Proof.
  destruct ifs as [text [|] [|] [|]]; cbn; intros H;
    first [discriminate H | reflexivity].
Qed.

(** X12: The manipulator [comma] leaves the stream good iff the stream was
    good and the next character behind white space is a comma; in that
    case the stream stands just behind that comma.  Nothing else gets past
    it. *)
Theorem comma_good_iff (ifs : istream) :
  (good (comma ifs) = true <->
   good ifs = true
   /\ exists sp rest,
        rdbuf ifs = sp +:+ String "," rest
        /\ all_chars isspace sp = true)
  /\ (forall sp rest,
        good ifs = true ->
        rdbuf ifs = sp +:+ String "," rest ->
        all_chars isspace sp = true ->
        comma ifs = mkIstream rest false false false).
Proof.
  assert (Hpass : forall sp rest,
            good ifs = true ->
            rdbuf ifs = sp +:+ String "," rest ->
            all_chars isspace sp = true ->
            comma ifs = mkIstream rest false false false).
  { intros sp rest Hifs Hbuf Hsp.
    rewrite (good_bits ifs Hifs), Hbuf.
    unfold comma, extract_char.
    now rewrite (sentry_ready sp "," rest Hsp eq_refl). }
  split; [|exact Hpass]. split.
  - intros Hgood. destruct (good ifs) eqn:Hifs.
    + split; [reflexivity|].
      rewrite (good_bits ifs Hifs) in Hgood.
      destruct (skip_space_split (rdbuf ifs)) as (sp & Hsplit & Hsp).
      unfold comma, extract_char, sentry in Hgood.
      cbn [good eofbit failbit badbit rdbuf orb negb] in Hgood.
      destruct (skip_space (rdbuf ifs)) as [|c rest] eqn:Hskip.
      * discriminate Hgood.
      * cbn [rdbuf eofbit failbit badbit] in Hgood.
        destruct (Ascii.eqb_spec c ",") as [->|Hc].
        -- exists sp, rest. auto.
        -- cbn [negb] in Hgood. discriminate Hgood.
    + unfold comma, extract_char, sentry in Hgood. rewrite Hifs in Hgood.
      unfold good, set_fail in Hgood. cbn [eofbit failbit badbit] in Hgood.
      rewrite orb_true_r in Hgood. discriminate Hgood.
  - intros (Hifs & sp & rest & Hbuf & Hsp).
    now rewrite (Hpass sp rest Hifs Hbuf Hsp).
Qed.

Lemma comma_good_iff_witness :
  comma (mkIstream (" ," +:+ "Rhine") false false false)
  = mkIstream "Rhine" false false false.
Proof.
  apply (proj2 (comma_good_iff
                  (mkIstream (" ," +:+ "Rhine") false false false))
           " " "Rhine"); reflexivity.
Defined.

End Comma.

(** ** A load that never returns *)

Section Hang.
Import Osmium WaterwayIds IStream Rivermap Spec Invariants.

(** X13: The loop of [load] tests [eof()] only: from a stream that has failed
    without reaching the end of the input it never returns, whatever is
    left to read. *)
Theorem load_hangs_after_failure (fuel : nat) (ifs : istream) (id : Z)
    (name : string) (m : RiversystemMap) :
  eof ifs = false -> fail ifs = true ->
  load_loop fuel ifs id name m = None.
Proof.
  intros Heof Hfail. apply load_loop_stuck; [exact Heof|].
  unfold good. unfold fail in Hfail. unfold eof in Heof.
  rewrite Heof. cbn [orb]. now rewrite Hfail.
Qed.

Lemma load_hangs_after_failure_witness :
  load_loop 1000 (mkIstream "Rhine" false true false) 0 "Upper" empty_map
  = None.
Proof.
  apply load_hangs_after_failure; reflexivity.
Defined.

(** X14: A line whose id is followed by anything else than a comma, white
    space or a digit (a semicolon, say) sets [badbit], which clears
    [eofbit] for good: [load] never returns on such a file. *)
Theorem load_hangs_on_wrong_separator (fuel : nat) (filename : string)
    (z : Z) (c : ascii) (rest : string) (id : Z) (m : RiversystemMap) :
  LONG_MIN <= z <= LONG_MAX ->
  isdigit c = false -> isspace c = false -> c <> ","%char ->
  load fuel filename
    (Some ("id,rsystem" +:+ endl +:+ pretty z +:+ String c rest)) id m
  = out_of_fuel.
Proof.
  intros Hz Hdigit Hspace Hcomma.
  rewrite (load_after_header fuel filename _
             (mkIstream ("" +:+ pretty z +:+ String c rest)
                false false false)); [|reflexivity].
  destruct fuel as [|fuel]; [reflexivity|].
  cbn [load_loop eof eofbit].
  rewrite extract_long_pretty; [|reflexivity| |discriminate|exact Hz].
  - unfold comma, extract_char.
    pose proof (sentry_ready "" c rest eq_refl Hspace) as Hs.
    rewrite string_app_nil_l in Hs. rewrite Hs.
    cbn [rdbuf eofbit failbit badbit].
    apply Ascii.eqb_neq in Hcomma. rewrite Hcomma. cbn [negb].
    unfold extract_string, sentry.
    cbn [good eofbit failbit badbit orb negb set_fail rdbuf].
    now rewrite load_loop_stuck.
  - cbn [starts_with_digit]. now rewrite Hdigit.
Qed.

Lemma load_hangs_on_wrong_separator_witness :
  load 50 "rsystems.csv"
    (Some ("id,rsystem" +:+ endl +:+ "5;Rhine")) 0 empty_map
  = out_of_fuel.
Proof.
  apply (load_hangs_on_wrong_separator 50 "rsystems.csv" 5 ";" "Rhine"
           0 empty_map).
  - unfold LONG_MIN, LONG_MAX. lia.
  - reflexivity.
  - reflexivity.
  - discriminate.
Defined.

Lemma skip_space_all (sp : string) :
  all_chars isspace sp = true -> skip_space sp = "".
Proof.
  induction sp as [|c sp IH]; [reflexivity|].
  cbn [all_chars skip_space]. intros H. apply andb_true_iff in H.
  destruct H as [Hc H]. rewrite Hc. now apply IH.
Qed.

(** X15: A file that holds the header line and, behind its line feed, white
    space only: the loop runs once without reading an entry and inserts
    the empty name under whatever the local variable [id], which was never
    assigned, holds. *)
Theorem load_without_entries (fuel : nat) (filename sp : string) (id : Z)
    (m : RiversystemMap) :
  all_chars isspace sp = true -> (2 <= fuel)%nat ->
  load fuel filename (Some ("id,rsystem" +:+ endl +:+ sp)) id m
  = loaded (Rivermap.insert id "" m).
Proof.
  intros Hsp Hfuel.
  rewrite (load_after_header fuel filename _
             (mkIstream sp false false false)); [|reflexivity].
  do 2 (destruct fuel as [|fuel]; [lia|]).
  cbn [load_loop eof eofbit].
  unfold extract_long, comma, extract_char, extract_string, sentry.
  cbn [good eofbit failbit badbit orb negb rdbuf].
  rewrite (skip_space_all sp Hsp).
  cbn [good eofbit failbit badbit orb negb rdbuf set_fail eof].
  reflexivity.
Qed.

Lemma load_without_entries_witness :
  load 2 "rsystems.csv" (Some ("id,rsystem" +:+ endl +:+ endl)) 77
    empty_map
  = loaded (mkRiversystemMap [""] {[ 77 := c_str_of_name 0 ]}).
Proof.
  rewrite (load_without_entries 2 "rsystems.csv" endl 77 empty_map);
    [|reflexivity|lia].
  now rewrite insert_into_empty.
Defined.

End Hang.

(** ** The table under any input *)

Section TableSound.
Import Osmium WaterwayIds IStream Rivermap Spec Invariants.


(** [m_names.insert] leaves the nodes that exist where they are. *)
Lemma names_insert_keeps (names : list string) (name : string) (node : nat)
    (x : string) :
  names !! node = Some x ->
  fst (names_insert names name) !! node = Some x.
Proof.
  intros Hx. unfold names_insert.
  destruct (find_node names name); cbn [fst]; [exact Hx|].
  now apply lookup_app_l_Some.
Qed.



(** [insert] keeps the table sound, and the entries that are there keep
    their pointer and their name. *)
Lemma insert_table_ok (id : Z) (name : string) (m : RiversystemMap) :
  table_ok m ->
  table_ok (Rivermap.insert id name m)
  /\ forall id' p,
       m_id2Name m !! id' = Some p ->
       m_id2Name (Rivermap.insert id name m) !! id' = Some p
       /\ c_str_value (Rivermap.insert id name m) p = c_str_value m p.
Proof.
  intros [Hnd Hvalid].
  pose proof (names_insert_spec (m_names m) name Hnd) as Hspec.
  unfold Rivermap.insert.
  destruct (names_insert (m_names m) name) as [names node].
  destruct Hspec as (Hnode & Hkeep & Hnd').
  split; [split|]; cbn [m_names m_id2Name].
  - exact Hnd'.
  - intros id' p Hp. destruct (m_id2Name m !! id) eqn:Hid.
    + destruct (Hvalid id' p Hp) as (n & x & -> & Hx). eauto.
    + destruct (decide (id = id')) as [<-|Hne].
      * rewrite lookup_insert_eq in Hp. injection Hp as <-. eauto.
      * rewrite lookup_insert_ne in Hp by exact Hne.
        destruct (Hvalid id' p Hp) as (n & x & -> & Hx). eauto.
  - intros id' p Hp. split.
    + destruct (m_id2Name m !! id) eqn:Hid; [exact Hp|].
      rewrite lookup_insert_ne; [exact Hp | congruence].
    + destruct (Hvalid id' p Hp) as (n & x & -> & Hx).
      unfold c_str_value. cbn [m_names]. now rewrite Hx, (Hkeep n x Hx).
Qed.

Lemma load_loop_table_ok (fuel : nat) :
  forall (ifs : istream) (id : Z) (name : string) (m m' : RiversystemMap),
    table_ok m ->
    load_loop fuel ifs id name m = Some m' ->
    table_ok m'
    /\ forall id' p,
         m_id2Name m !! id' = Some p ->
         m_id2Name m' !! id' = Some p
         /\ c_str_value m' p = c_str_value m p.
Proof.
  induction fuel as [|fuel IH]; intros ifs id name m m' Hok;
    [discriminate|].
  cbn [load_loop]. destruct (eof ifs).
  - intros [= <-]. auto.
  - destruct (extract_long ifs id) as [ifs1 id1].
    destruct (extract_string (comma ifs1) name) as [ifs2 name1].
    intros Hloop.
    destruct (insert_table_ok id1 name1 m Hok) as [Hok1 Hkeep1].
    destruct (IH _ _ _ _ _ Hok1 Hloop) as [Hok' Hkeep'].
    split; [exact Hok'|]. intros id' p Hp.
    destruct (Hkeep1 id' p Hp) as [Hp1 Hv1].
    destruct (Hkeep' id' p Hp1) as [Hp' Hv'].
    split; [exact Hp' | congruence].
Qed.

(** X17: Whatever the file holds, a [load] that returns leaves a sound table:
    every pointer [getName] can hand out is the buffer of a node that
    exists, no two nodes hold the same name, and the entries that were in
    the table before keep their pointer and their name. *)
Theorem load_keeps_table_sound (fuel : nat) (filename : string)
    (content : option string) (id : Z) (m m' : RiversystemMap) :
  table_ok m ->
  load fuel filename content id m = loaded m' ->
  table_ok m'
  /\ forall id' p,
       m_id2Name m !! id' = Some p ->
       m_id2Name m' !! id' = Some p
       /\ c_str_value m' p = c_str_value m p.
Proof.
  intros Hok. rewrite load_unfold.
  destruct (String.eqb (first_line content) ""); [discriminate|].
  destruct (negb (String.eqb (first_line content) "id,rsystem"));
    [discriminate|].
  destruct (load_loop fuel _ id "" m) as [m1|] eqn:Hloop; [|discriminate].
  intros [= <-]. exact (load_loop_table_ok _ _ _ _ _ _ Hok Hloop).
Qed.

Lemma load_keeps_table_sound_witness :
  exists m',
    load 5 "rsystems.csv" (Some Examples.rhine_csv) 0
      (Rivermap.insert 5 "Rhein" empty_map) = loaded m'
    /\ table_ok m'
    /\ c_str_value m' (getName m' 5) = "Rhein".
Proof.
  assert (Hok : table_ok (Rivermap.insert 5 "Rhein" empty_map)).
  { rewrite insert_into_empty. split.
    - apply NoDup_singleton.
    - intros id p Hp. cbn [m_id2Name] in Hp.
      apply lookup_insert_Some in Hp.
      destruct Hp as [[_ <-]|[_ Hp]]; [|now rewrite lookup_empty in Hp].
      exists O, "Rhein". split; reflexivity. }
  destruct (load 5 "rsystems.csv" (Some Examples.rhine_csv) 0
              (Rivermap.insert 5 "Rhein" empty_map)) as [m'| |] eqn:Hload;
    [|vm_compute in Hload; discriminate Hload..].
  exists m'. split; [reflexivity|].
  destruct (load_keeps_table_sound _ _ _ _ _ _ Hok Hload) as [Hok' Hkeep].
  split; [exact Hok'|].
  destruct (Hkeep 5 (c_str_of_name 0)) as [Hp Hv].
  { rewrite insert_into_empty. apply lookup_insert_eq. }
  unfold getName. rewrite Hp, Hv. reflexivity.
Defined.

End TableSound.

(** ** The layer after all ways *)

Section Layer.
Import Osmium WaterwayIds IStream Rivermap Spec Invariants.

Variable create_linestring : Way -> linestring_result.

Local Abbreviation way_of := (way create_linestring).
Local Abbreviation apply_ways_of := (apply_ways create_linestring).

(** The conversion to [double] keeps an id of up to 53 bits as it is, and
    rounds beyond that. *)
Lemma double_of_long_exact (id : Z) :
  Z.abs id <= 2 ^ 53 -> double_of_long id = id.
Proof.
  intros H. unfold double_of_long. apply Z.leb_le in H. now rewrite H.
Qed.

Lemma double_of_long_rounds :
  double_of_long (2 ^ 53 + 1) = 2 ^ 53
  /\ double_of_long (2 ^ 53 + 3) = 2 ^ 53 + 4
  /\ double_of_long (2 ^ 63 - 1) = 2 ^ 63.
Proof. repeat split. Qed.

(** The feature of a way that has a waterway tag and a line string. *)
Lemma way_feature (m : RiversystemMap) (w : Way) (h : OGRHandler) :
  emits create_linestring w = true ->
  exists feature,
    way_of m w h
    = Ok (mkOGRHandler (m_layer_linestring h ++ [feature]) (cerr h))
    /\ feature_of_way create_linestring m w feature.
Proof.
  unfold emits, has_key, way, feature_of_way. intros He.
  destruct (get_value_by_key (way_tags w) "waterway") as [waterway|];
    [|discriminate He].
  destruct (create_linestring w) as [points| |]; try discriminate He.
  destruct (get_value_by_key (way_tags w) "name") as [name|];
    (eexists; split; [reflexivity|]); unfold set_field;
    cbn [geometry fields fmap option_fmap option_map];
    (split; [reflexivity|]); (split; [|split; [|split; [|split]]]).
  - now rewrite !lookup_insert_ne, lookup_insert_eq by discriminate.
  - now rewrite !lookup_insert_ne, lookup_insert_eq by discriminate.
  - now rewrite lookup_insert_eq.
  - now rewrite !lookup_insert_ne, lookup_insert_eq by discriminate.
  - intros field H1 H2 H3 H4.
    now rewrite !lookup_insert_ne, lookup_empty by congruence.
  - now rewrite !lookup_insert_ne, lookup_insert_eq by discriminate.
  - now rewrite !lookup_insert_ne, lookup_insert_eq by discriminate.
  - now rewrite lookup_insert_eq.
  - now rewrite !lookup_insert_ne, lookup_empty by discriminate.
  - intros field H1 H2 H3 H4.
    now rewrite !lookup_insert_ne, lookup_empty by congruence.
Qed.

(** A way without a feature: no waterway tag, or an illegal geometry. *)
Lemma way_no_feature (m : RiversystemMap) (w : Way) (h : OGRHandler) :
  emits create_linestring w = false ->
  throws_other create_linestring w = false ->
  way_of m w h
  = Ok (mkOGRHandler (m_layer_linestring h)
          (cerr h ++ if skipped create_linestring w
                     then [illegal_geometry w] else [])).
Proof.
  unfold emits, throws_other, skipped, has_key, way. intros He Ht.
  destruct (get_value_by_key (way_tags w) "waterway") as [waterway|].
  - destruct (create_linestring w) as [points| |];
      [discriminate He|reflexivity|discriminate Ht].
  - cbn [andb]. rewrite app_nil_r. now destruct h.
Qed.

(** X18: When no way throws anything but a geometry error, all ways are
    handled: the layer gains one feature for each way that has a waterway
    tag and a line string, in stream order, with exactly the fields id
    (the way id as converted to [double]), type and rsystem and, for a way
    with a name tag, name; and standard error gains one line for each way
    with a waterway tag and an illegal geometry. *)
Theorem apply_ways_layer (m : RiversystemMap) (ways : list Way)
    (h : OGRHandler) :
  Forall (fun w => throws_other create_linestring w = false) ways ->
  exists features,
    apply_ways_of m ways h
    = (mkOGRHandler (m_layer_linestring h ++ features)
         (cerr h ++ map illegal_geometry
                      (List.filter (skipped create_linestring) ways)),
       None)
    /\ Forall2 (feature_of_way create_linestring m)
         (List.filter (emits create_linestring) ways) features.
Proof.
  intros Hno. revert h.
  induction ways as [|w ways IH]; intros h.
  - exists []. cbn. rewrite !app_nil_r. split; [now destruct h|constructor].
  - inversion Hno as [|? ? Hw Hways]; subst. specialize (IH Hways).
    cbn [apply_ways List.filter].
    destruct (emits create_linestring w) eqn:He.
    + destruct (way_feature m w h He) as (feature & Hway & Hf).
      rewrite Hway.
      destruct (IH (mkOGRHandler (m_layer_linestring h ++ [feature])
                      (cerr h))) as (features & Happ & Hfs).
      exists (feature :: features). rewrite Happ.
      cbn [m_layer_linestring cerr]. rewrite <- app_assoc. cbn [app].
      assert (Hs : skipped create_linestring w = false).
      { unfold emits in He. unfold skipped.
        destruct (has_key (way_tags w) "waterway"); [|reflexivity].
        destruct (create_linestring w); [reflexivity|discriminate He..]. }
      rewrite Hs. split; [reflexivity | now constructor].
    + rewrite (way_no_feature m w h He Hw).
      destruct (IH (mkOGRHandler (m_layer_linestring h)
                      (cerr h ++ if skipped create_linestring w
                                 then [illegal_geometry w] else [])))
        as (features & Happ & Hfs).
      exists features. rewrite Happ. cbn [m_layer_linestring cerr].
      split; [|exact Hfs].
      destruct (skipped create_linestring w); cbn [map];
        now rewrite <- app_assoc.
Qed.

(** X19: The first way whose line string throws something else than a geometry
    error ends the pass: the features of the ways before it are in the
    layer, and the ways after it are not looked at. *)
Theorem apply_ways_stops_at_exception (m : RiversystemMap)
    (before after : list Way) (w : Way) (h : OGRHandler) :
  Forall (fun w => throws_other create_linestring w = false) before ->
  throws_other create_linestring w = true ->
  exists what,
    create_linestring w = other_error what
    /\ apply_ways_of m (before ++ w :: after) h
       = (fst (apply_ways_of m before h), Some what).
Proof.
  intros Hbefore Hw.
  assert (Hthrow : exists what,
            create_linestring w = other_error what
            /\ forall h', way_of m w h' = Throw what).
  { unfold throws_other, has_key in Hw. unfold way.
    destruct (get_value_by_key (way_tags w) "waterway"); [|discriminate Hw].
    destruct (create_linestring w) as [| |what]; try discriminate Hw.
    exists what. auto. }
  destruct Hthrow as (what & Hcl & Hway). exists what.
  split; [exact Hcl|]. revert h.
  induction Hbefore as [|b before Hb _ IH]; intros h.
  - cbn [app apply_ways fst]. now rewrite Hway.
  - cbn [app apply_ways].
    destruct (emits create_linestring b) eqn:He.
    + destruct (way_feature m b h He) as (feature & -> & _). apply IH.
    + rewrite (way_no_feature m b h He Hb). apply IH.
Qed.

(** With an empty table every feature the pass adds has the empty string
    as its river system. *)
Lemma apply_ways_empty_table (ways : list Way) :
  forall h : OGRHandler,
    Forall (fun w => throws_other create_linestring w = false) ways ->
    Forall (fun feature =>
              fields feature !! "rsystem" = Some (string_field ""))
      (m_layer_linestring h) ->
    exists h',
      apply_ways_of empty_map ways h = (h', None)
      /\ length (m_layer_linestring h')
         = (length (m_layer_linestring h)
            + length (List.filter (emits create_linestring) ways))%nat
      /\ Forall (fun feature =>
                   fields feature !! "rsystem" = Some (string_field ""))
           (m_layer_linestring h').
Proof.
  induction ways as [|w ways IH]; intros h Hno Hall.
  - exists h. cbn. split; [reflexivity|]. split; [lia | exact Hall].
  - inversion Hno as [|? ? Hw Hways]; subst.
    cbn [apply_ways List.filter].
    destruct (emits create_linestring w) eqn:He.
    + destruct (way_feature empty_map w h He) as (feature & -> & Hf).
      destruct Hf as (_ & _ & _ & Hr & _).
      destruct (IH (mkOGRHandler (m_layer_linestring h ++ [feature])
                      (cerr h)) Hways) as (h' & Happ & Hlen & Hall').
      { cbn [m_layer_linestring]. apply Forall_app. split; [exact Hall|].
        constructor; [exact Hr | constructor]. }
      exists h'. split; [exact Happ|]. split; [|exact Hall'].
      rewrite Hlen. cbn [m_layer_linestring length].
      rewrite length_app. cbn [length]. lia.
    + rewrite (way_no_feature empty_map w h He Hw).
      destruct (IH (mkOGRHandler (m_layer_linestring h)
                      (cerr h ++ if skipped create_linestring w
                                 then [illegal_geometry w] else []))
                  Hways Hall) as (h' & Happ & Hlen & Hall').
      exists h'. split; [exact Happ|]. split; [exact Hlen | exact Hall'].
Qed.

(** X20: Without a river-system file every feature of the layer has the
    rsystem field, and it holds the empty string; the files of the machine
    and the fuel play no part. *)
Theorem run_without_riversystems (fuel : nat) (ways : list Way)
    (fs : gmap string string) (id : Z) :
  Forall (fun w => throws_other create_linestring w = false) ways ->
  exists layer,
    run create_linestring fuel (Some ways) "" fs id = exited 0 layer
    /\ length layer
       = length (List.filter (emits create_linestring) ways)
    /\ Forall (fun feature =>
                 fields feature !! "rsystem" = Some (string_field ""))
         layer.
Proof.
  intros Hno. unfold run. cbn [String.eqb negb].
  destruct (apply_ways_empty_table ways (mkOGRHandler [] []) Hno
              ltac:(constructor)) as (h' & Happ & Hlen & Hall).
  rewrite Happ. exists (m_layer_linestring h').
  split; [reflexivity|]. split; [exact Hlen | exact Hall].
Qed.

End Layer.

Section LayerExamples.
Import Osmium WaterwayIds IStream Rivermap Spec Invariants.

Lemma apply_ways_layer_witness :
  exists feature,
    apply_ways Osmium.create_linestring empty_map
      [Examples.stub; Examples.located_river; Examples.road]
      (mkOGRHandler [] [])
    = (mkOGRHandler [feature] ["Ignoring illegal geometry for way 20."],
       None)
    /\ fields feature !! "id" = Some (real_field 5).
Proof.
  destruct (apply_ways_layer Osmium.create_linestring empty_map
              [Examples.stub; Examples.located_river; Examples.road]
              (mkOGRHandler [] [])) as (features & Happ & Hfs).
  { repeat constructor. }
  cbn [List.filter emits] in Hfs. vm_compute List.filter in Hfs.
  inversion Hfs as [|w feature ws fs' Hf Hrest]; subst.
  inversion Hrest; subst.
  exists feature. split; [exact Happ|].
  destruct Hf as (_ & Hid & _). exact Hid.
Defined.

Lemma apply_ways_stops_at_exception_witness :
  apply_ways Osmium.create_linestring empty_map
    ([Examples.stub] ++ unlocated :: [Examples.located_river])
    (mkOGRHandler [] [])
  = (mkOGRHandler [] ["Ignoring illegal geometry for way 20."],
     Some "invalid location").
Proof.
  destruct (apply_ways_stops_at_exception Osmium.create_linestring
              empty_map [Examples.stub] [Examples.located_river] unlocated
              (mkOGRHandler [] [])) as (what & Hcl & Happ).
  { repeat constructor. }
  { reflexivity. }
  rewrite Happ. vm_compute in Hcl. injection Hcl as <-. reflexivity.
Defined.

Lemma run_without_riversystems_witness :
  exists layer,
    run Osmium.create_linestring 0
      (Some [Examples.located_river; Examples.road]) "" ∅ 0
    = exited 0 layer
    /\ length layer = 1%nat.
Proof.
  destruct (run_without_riversystems Osmium.create_linestring 0
              [Examples.located_river; Examples.road] ∅ 0)
    as (layer & Hrun & Hlen & _).
  { repeat constructor. }
  exists layer. split; [exact Hrun | exact Hlen].
Defined.

End LayerExamples.
